(** * Telegram bot factory: the worker, the supervisor and the gateway client

    A shallow embedding of [bot_manager.py], [onlysq_api.py], the row
    functions of [database.py], and the token validator and the management
    callbacks of [main.py].

    Conventions of the embedding.
    - A Python coroutine is a function in the monad [M S] below: it
      threads the mutable objects it touches ([S]) and either returns a
      value or raises.  A mutation made before a [raise] stays made, as in
      Python.
    - Exceptions range over instances of [Exception], the class the
      source's [except Exception] clauses match.
    - Everything outside the repository (the Telegram transport, the HTTP
      endpoint) answers through an environment record that says, call
      site by call site, what that call returned or raised.  Theorems
      quantify over every environment.
    - Calls to [logger] have no effect on the objects modelled here and
      are left out.
    - A Python [str] is the list of its Unicode code points, so [len]
      counts characters, not bytes; the literals of the source are
      written through [utf8]. *)

From Stdlib Require Import ZArith QArith.
From stdpp Require Import base option list gmap strings.

#[local] Set Warnings "-register-all".
Local Open Scope Z_scope.

(** ** Python strings *)

Abbreviation char := N (only parsing).
Abbreviation str := (list N) (only parsing).

(** Decoding of UTF-8: [acc] holds the bits read so far of a character
    that still needs [need] continuation bytes. *)
Fixpoint utf8_decode (bytes : list N) (acc : N) (need : nat) : str :=
  match bytes with
  | [] => []
  | b :: rest =>
      match need with
      | O =>
          if (b <? 128)%N then b :: utf8_decode rest 0%N 0%nat
          else if (b <? 224)%N then utf8_decode rest (b - 192)%N 1%nat
          else if (b <? 240)%N then utf8_decode rest (b - 224)%N 2%nat
          else utf8_decode rest (b - 240)%N 3%nat
      | S O => (acc * 64 + (b - 128))%N :: utf8_decode rest 0%N 0%nat
      | S n => utf8_decode rest (acc * 64 + (b - 128))%N n
      end
  end.

(** The [str] a literal of the (UTF-8 encoded) source denotes. *)
Definition utf8 (literal : string) : str :=
  utf8_decode (map Ascii.N_of_ascii (String.list_ascii_of_string literal)) 0%N 0%nat.

(** ** Results and the state-and-exception monad *)

Inductive exn : Type :=
| TimeoutError                    (* asyncio.TimeoutError *)
| KeyError
| IndexError
| TypeError
| OtherError (descr : str).       (* any other instance of Exception *)

Inductive result (A : Type) : Type :=
| Ok (a : A)
| Raise (e : exn).
Arguments Ok {A} a.
Arguments Raise {A} e.

Definition M (S A : Type) : Type := S → result A * S.

Definition ret {S A} (a : A) : M S A := λ s, (Ok a, s).

Definition raise {S A} (e : exn) : M S A := λ s, (Raise e, s).

Definition bind {S A B} (m : M S A) (k : A → M S B) : M S B :=
  λ s, match m s with
       | (Ok a, s') => k a s'
       | (Raise e, s') => (Raise e, s')
       end.

(** [try: body except Exception as e: handler e] *)
Definition try_except {S A} (body : M S A) (handler : exn → M S A) : M S A :=
  λ s, match body s with
       | (Ok a, s') => (Ok a, s')
       | (Raise e, s') => handler e s'
       end.

Definition gets {S A} (f : S → A) : M S A := λ s, (Ok (f s), s).

Definition modify {S} (f : S → S) : M S unit := λ s, (Ok tt, f s).

(** The result of an awaited external call, fixed by the environment. *)
Definition lift {S A} (r : result A) : M S A := λ s, (r, s).

(** An external call that returns nothing: [None] when it returns,
    [Some e] when it raises [e]. *)
Definition external {S} (r : option exn) : M S unit :=
  match r with
  | None => ret tt
  | Some e => raise e
  end.

(** stdpp's monad notations: [x ← m; k] and [m;; k]. *)
#[global] Instance M_ret {S} : MRet (M S) := λ A a, ret a.
#[global] Instance M_bind {S} : MBind (M S) := λ A B k m, bind m k.

(** ** Values exchanged with the gateway *)

(** A decoded JSON document, as [response.json()] returns it: [None],
    [bool], a number (kept as its literal), [str], [list], [dict].  A
    [dict] is the list of its items in insertion order, with unique
    keys. *)
Inductive value : Type :=
| VNone
| VBool (b : bool)
| VNum (literal : str)
| VStr (s : str)
| VList (items : list value)
| VDict (items : list (str * value)).

(** A subscript, [v[k]] with a [str] key or [v[i]] with an [int] index. *)
Inductive key : Type :=
| KStr (k : str)
| KInt (i : Z).

Fixpoint dict_get (items : list (str * value)) (k : str) : option value :=
  match items with
  | [] => None
  | (k', v) :: rest => if bool_decide (k' = k) then Some v else dict_get rest k
  end.

(** [l[i]] on a sequence of length [length l]: a negative [i] counts from
    the end. *)
Definition seq_index {A} (l : list A) (i : Z) : option A :=
  let n := Z.of_nat (length l) in
  if (0 <=? i) && (i <? n) then l !! Z.to_nat i
  else if (- n <=? i) && (i <? 0) then l !! Z.to_nat (n + i)
  else None.

(** Python's [v[k]]. *)
Definition subscript (v : value) (k : key) : result value :=
  match v, k with
  | VDict items, KStr s =>
      match dict_get items s with
      | Some x => Ok x
      | None => Raise KeyError
      end
  | VDict _, KInt _ => Raise KeyError       (* the keys of a decoded object are str *)
  | VList items, KInt i =>
      match seq_index items i with
      | Some x => Ok x
      | None => Raise IndexError
      end
  | VList _, KStr _ => Raise TypeError
  | VStr s, KInt i =>
      match seq_index s i with
      | Some c => Ok (VStr [c])
      | None => Raise IndexError
      end
  | VStr _, KStr _ => Raise TypeError
  | (VNone | VBool _ | VNum _), _ => Raise TypeError
  end.

(** One entry of a message list: [{"role": ..., "content": ...}]. *)
Record message : Type := Message { role : str; content : value }.

Record payload : Type := Payload {
  model : str;
  messages : list message;
  temperature : Q
}.

(** What [session.post] does with a payload: it raises, or it yields a
    response with a status, a body read as text and a body decoded as
    JSON (reading or decoding may raise in turn). *)
Inductive http_outcome : Type :=
| PostRaises (e : exn)
| Response (status : Z) (text : result str) (json : result value).

(** ** onlysq_api.py *)

Record ClientSession : Type := { closed : bool }.

Record OnlySqAPI : Type := { session : option ClientSession }.

Definition OnlySqAPI_init : OnlySqAPI := {| session := None |}.

Definition api_error_text : str := utf8 "Извини, произошла ошибка при обращении к API.".
Definition api_timeout_text : str := utf8 "Извини, запрос занял слишком много времени.".
Definition api_failure_text : str := utf8 "Произошла ошибка при обработке запроса.".

Definition _get_session : M OnlySqAPI ClientSession :=
  s ← gets session;
  match s with
  | Some cs =>
      if closed cs
      then modify (λ _, {| session := Some {| closed := false |} |});;
           ret {| closed := false |}
      else ret cs
  | None =>
      modify (λ _, {| session := Some {| closed := false |} |});;
      ret {| closed := false |}
  end.

(** Lines 51-57 of [chat]: the system prompt, when it is a non-empty
    string, then the caller's messages. *)
Definition full_messages (msgs : list message) (system_prompt : str)
  : list message :=
  let full := [] in
  let full :=
    match system_prompt with
    | [] => full
    | _ :: _ => full ++ [Message (utf8 "system") (VStr system_prompt)]
    end in
  full ++ msgs.

Definition chat_payload (msgs : list message) (system_prompt : str)
    (model : str) (temperature : Q) : payload :=
  Payload model (full_messages msgs system_prompt) temperature.

(** Line 77: [data['choices'][0]['message']['content']]. *)
Definition extract_content (data : value) : result value :=
  match subscript data (KStr (utf8 "choices")) with
  | Raise e => Raise e
  | Ok choices =>
      match subscript choices (KInt 0) with
      | Raise e => Raise e
      | Ok first =>
          match subscript first (KStr (utf8 "message")) with
          | Raise e => Raise e
          | Ok msg => subscript msg (KStr (utf8 "content"))
          end
      end
  end.

(** The body of the [try] of [chat], given what the endpoint does. *)
Definition chat_request (post : payload → http_outcome) (p : payload)
  : M OnlySqAPI value :=
  match post p with
  | PostRaises e => raise e
  | Response status text json =>
      if negb (status =? 200)
      then error_text ← lift text;
           ret (VStr api_error_text)
      else data ← lift json;
           lift (extract_content data)
  end.

Definition chat (post : payload → http_outcome)
    (msgs : list message) (system_prompt : str)
    (model : str) (temperature : Q) : M OnlySqAPI value :=
  _get_session;;
  let p := chat_payload msgs system_prompt model temperature in
  try_except (chat_request post p)
    (λ e, match e with
          | TimeoutError => ret (VStr api_timeout_text)
          | _ => ret (VStr api_failure_text)
          end).

(** [close]: an open session is closed; there is nothing else to do. *)
Definition close : M OnlySqAPI unit :=
  s ← gets session;
  match s with
  | Some cs =>
      if negb (closed cs)
      then modify (λ _, {| session := Some {| closed := true |} |})
      else ret tt
  | None => ret tt
  end.

Definition default_model : str := utf8 "gpt-4o-mini".
Definition default_temperature : Q := 7 # 10.

(** ** bot_manager.py: the worker *)

(** The callbacks a worker registers, and the filters they are registered
    under. *)
Inductive callback : Type := start_handler_cb | reset_handler_cb | message_handler_cb.

Inductive handler : Type :=
| CommandHandler (command : str) (cb : callback)
| MessageHandler_text_not_command (cb : callback).

Record Application : Type := {
  app_token : str;
  app_handlers : list handler
}.

(** [onlysq] is a reference to the client shared by every worker: the
    client lives in [runtime] below, not in the record.  [task] is never
    assigned after [__init__] and is left out. *)
Record ManagedBot : Type := {
  bot_id : Z;
  bot_token : str;
  system_prompt : str;
  application : option Application;
  user_contexts : gmap Z (list message)
}.

Definition ManagedBot_init (bot_id : Z) (bot_token system_prompt : str)
  : ManagedBot :=
  {| bot_id := bot_id; bot_token := bot_token; system_prompt := system_prompt;
     application := None; user_contexts := ∅ |}.

Definition set_user_contexts (f : gmap Z (list message) → gmap Z (list message))
    (b : ManagedBot) : ManagedBot :=
  {| bot_id := bot_id b; bot_token := bot_token b;
     system_prompt := system_prompt b; application := application b;
     user_contexts := f (user_contexts b) |}.

Definition set_application (a : option Application) (b : ManagedBot) : ManagedBot :=
  {| bot_id := bot_id b; bot_token := bot_token b;
     system_prompt := system_prompt b; application := a;
     user_contexts := user_contexts b |}.

(** What a handler runs against: its worker, the shared gateway client,
    and the replies the transport has delivered so far, each with the
    user whose message it answers. *)
Record runtime : Type := Runtime {
  self : ManagedBot;
  onlysq : OnlySqAPI;
  outbox : list (Z * value)
}.

(** An inbound update: [update.effective_user.id] and
    [update.message.text]. *)
Record Update : Type := { effective_user_id : Z; message_text : str }.

(** What the outside does during one handler invocation: the endpoint's
    answer to a payload, the outcome of the handler's first
    [reply_text], and the outcome of the [reply_text] in the [except]
    clause of [message_handler]. *)
Record handler_env : Type := {
  post : payload → http_outcome;
  reply_result : option exn;
  apology_result : option exn
}.

Definition on_self {A} (m : M ManagedBot A) : M runtime A :=
  λ w, let '(r, b) := m (self w) in (r, Runtime b (onlysq w) (outbox w)).

Definition on_onlysq {A} (m : M OnlySqAPI A) : M runtime A :=
  λ w, let '(r, a) := m (onlysq w) in (r, Runtime (self w) a (outbox w)).

(** [await update.message.reply_text(text)] *)
Definition reply_text (r : option exn) (update : Update) (text : value)
  : M runtime unit :=
  external r;;
  modify (λ w, Runtime (self w) (onlysq w)
                 (outbox w ++ [(effective_user_id update, text)])).

(** [self.user_contexts[user_id]] *)
Definition get_context (user_id : Z) : M ManagedBot (list message) :=
  ctxs ← gets user_contexts;
  match ctxs !! user_id with
  | Some h => ret h
  | None => raise KeyError
  end.

(** [self.user_contexts[user_id] = h] *)
Definition set_context (user_id : Z) (h : list message) : M ManagedBot unit :=
  modify (set_user_contexts (λ ctxs, <[user_id := h]> ctxs)).

(** [self.user_contexts[user_id].append(m)] *)
Definition append_context (user_id : Z) (m : message) : M ManagedBot unit :=
  h ← get_context user_id;
  set_context user_id (h ++ [m]).

(** [l[-n:]] *)
Definition last_n {A} (n : nat) (l : list A) : list A :=
  drop (length l - n) l.

Definition greeting_text : str :=
  utf8 "👋 Привет! Я готов к общению. Напиши мне что-нибудь!".
Definition apology_text : str :=
  utf8 "😔 Извини, произошла ошибка. Попробуй еще раз.".
Definition reset_text : str :=
  utf8 "🔄 Контекст диалога сброшен. Начнем с чистого листа!".

Definition start_handler (env : handler_env) (update : Update) : M runtime unit :=
  let user_id := effective_user_id update in
  on_self (set_context user_id []);;
  reply_text (reply_result env) update (VStr greeting_text).

(** Lines 47-62 of [message_handler]: the user turn is recorded and the
    history cut to its last 20 entries. *)
Definition record_user_turn (update : Update) : M runtime unit :=
  let user_id := effective_user_id update in
  let user_message := message_text update in
  ctxs ← on_self (gets user_contexts);
  (if bool_decide (user_id ∉ dom ctxs)
   then on_self (set_context user_id [])
   else ret tt);;
  on_self (append_context user_id (Message (utf8 "user") (VStr user_message)));;
  h ← on_self (get_context user_id);
  if bool_decide (20 < length h)%nat
  then h ← on_self (get_context user_id);
       on_self (set_context user_id (last_n 20 h))
  else ret tt.

(** Lines 64-83 of [message_handler]: the gateway is asked and its answer
    recorded and sent. *)
Definition answer_user_turn (env : handler_env) (update : Update) : M runtime unit :=
  let user_id := effective_user_id update in
  try_except
    (h ← on_self (get_context user_id);
     prompt ← on_self (gets system_prompt);
     response ← on_onlysq
       (chat (post env) h prompt default_model default_temperature);
     on_self (append_context user_id (Message (utf8 "assistant") response));;
     reply_text (reply_result env) update response)
    (λ e, reply_text (apology_result env) update (VStr apology_text)).

Definition message_handler (env : handler_env) (update : Update) : M runtime unit :=
  record_user_turn update;;
  answer_user_turn env update.

Definition reset_handler (env : handler_env) (update : Update) : M runtime unit :=
  let user_id := effective_user_id update in
  on_self (set_context user_id []);;
  reply_text (reply_result env) update (VStr reset_text).

(** The history the worker holds for a user, if any. *)
Definition history (w : runtime) (user_id : Z) : option (list message) :=
  user_contexts (self w) !! user_id.

(** What the transport does during one [start_polling]: the outcome of
    [Application.builder().token(...).build()], of [initialize()], of
    [start()] and of [updater.start_polling(...)]. *)
Record start_env : Type := {
  build_result : option exn;
  initialize_result : option exn;
  start_result : option exn;
  updater_start_result : option exn
}.

(** What the transport does during one [stop]: the outcome of
    [updater.stop()], of [stop()] and of [shutdown()]. *)
Record stop_env : Type := {
  updater_stop_result : option exn;
  app_stop_result : option exn;
  shutdown_result : option exn
}.

(** [self.application.add_handler(h)] *)
Definition add_handler (h : handler) : M ManagedBot unit :=
  app ← gets application;
  match app with
  | Some a =>
      modify (set_application
                (Some {| app_token := app_token a;
                         app_handlers := app_handlers a ++ [h] |}))
  | None => raise (OtherError (utf8 "AttributeError"))
  end.

Definition start_polling (env : start_env) : M ManagedBot unit :=
  token ← gets bot_token;
  external (build_result env);;
  modify (set_application (Some {| app_token := token; app_handlers := [] |}));;
  add_handler (CommandHandler (utf8 "start") start_handler_cb);;
  add_handler (CommandHandler (utf8 "reset") reset_handler_cb);;
  add_handler (MessageHandler_text_not_command message_handler_cb);;
  external (initialize_result env);;
  external (start_result env);;
  external (updater_start_result env).

Definition stop (env : stop_env) : M ManagedBot unit :=
  app ← gets application;
  match app with
  | Some _ =>
      external (updater_stop_result env);;
      external (app_stop_result env);;
      external (shutdown_result env)
  | None => ret tt
  end.

(** ** bot_manager.py: the supervisor *)

Record BotManager : Type := { bots : gmap Z ManagedBot }.

Definition BotManager_init : BotManager := {| bots := ∅ |}.

(** A method call on an object the caller has just built and holds
    alone: the object after the call is handed back. *)
Definition on_new {A} (b : ManagedBot) (m : M ManagedBot A) : M BotManager ManagedBot :=
  λ s, match m b with
       | (Ok _, b') => (Ok b', s)
       | (Raise e, _) => (Raise e, s)
       end.

(** A method call on [self.bots[bot_id]]: the object is the registered
    one, so what the call does to it is seen in the registry whether the
    call returns or raises. *)
Definition on_registered {A} (bot_id : Z) (m : M ManagedBot A) : M BotManager A :=
  λ s, match bots s !! bot_id with
       | Some b => let '(r, b') := m b in (r, {| bots := <[bot_id := b']> (bots s) |})
       | None => (Raise KeyError, s)
       end.

(** [del self.bots[bot_id]] *)
Definition del_bot (bot_id : Z) : M BotManager unit :=
  bs ← gets bots;
  match bs !! bot_id with
  | Some _ => modify (λ s, {| bots := delete bot_id (bots s) |})
  | None => raise KeyError
  end.

Definition start_bot (env : start_env) (bot_id : Z) (bot_token system_prompt : str)
  : M BotManager bool :=
  try_except
    (bs ← gets bots;
     if bool_decide (bot_id ∈ dom bs) then ret false
     else
       managed_bot ← on_new (ManagedBot_init bot_id bot_token system_prompt)
                            (start_polling env);
       modify (λ s, {| bots := <[bot_id := managed_bot]> (bots s) |});;
       ret true)
    (λ e, ret false).

Definition stop_bot (env : stop_env) (bot_id : Z) : M BotManager bool :=
  bs ← gets bots;
  if bool_decide (bot_id ∉ dom bs) then ret false
  else
    try_except
      (on_registered bot_id (stop env);;
       del_bot bot_id;;
       ret true)
      (λ e, ret false).

(** [list(self.bots.keys())]; the order of the keys is not modelled. *)
Definition get_running_bots (s : BotManager) : list Z :=
  elements (dom (bots s)).

(** *** Two coroutines in one event loop

    [start_bot] can be suspended inside
    [await managed_bot.start_polling()] and nowhere else, and does not
    touch the registry while it is; so, as far as the registry and the
    result go, a call runs in two uninterrupted pieces: up to that
    [await], and from the transport's answer to the [return]. *)
Inductive start_task : Type :=
| StartCalled (bot_id : Z) (bot_token system_prompt : str)
| StartAwaiting (bot_id : Z) (managed_bot : ManagedBot)
| StartReturned (r : bool).

Definition start_task_step (env : start_env) (t : start_task) (s : BotManager)
  : start_task * BotManager :=
  match t with
  | StartCalled bot_id bot_token system_prompt =>
      if bool_decide (bot_id ∈ dom (bots s)) then (StartReturned false, s)
      else (StartAwaiting bot_id (ManagedBot_init bot_id bot_token system_prompt), s)
  | StartAwaiting bot_id managed_bot =>
      match start_polling env managed_bot with
      | (Ok _, managed_bot') =>
          (StartReturned true, {| bots := <[bot_id := managed_bot']> (bots s) |})
      | (Raise _, _) => (StartReturned false, s)
      end
  | StartReturned r => (StartReturned r, s)
  end.

(** Two calls in flight; [schedule] says which of them (false: the
    first, true: the second) runs its next piece. *)
Fixpoint run_two_starts (env1 env2 : start_env) (schedule : list bool)
    (t1 t2 : start_task) (s : BotManager) : start_task * start_task * BotManager :=
  match schedule with
  | [] => (t1, t2, s)
  | false :: rest =>
      let '(t1', s') := start_task_step env1 t1 s in
      run_two_starts env1 env2 rest t1' t2 s'
  | true :: rest =>
      let '(t2', s') := start_task_step env2 t2 s in
      run_two_starts env1 env2 rest t1 t2' s'
  end.

(** *** The worker's inbound stream

    What the transport hands to the worker: a command, or a text that is
    not a command.  [start_polling] registers a callback for the commands
    [start] and [reset] and for texts; an update no handler matches is
    dropped. *)
Inductive inbound : Type :=
| Command (name : str) (update : Update)
| Text (update : Update).

Definition dispatch (env : handler_env) (i : inbound) : M runtime unit :=
  match i with
  | Command name update =>
      if bool_decide (name = utf8 "start") then start_handler env update
      else if bool_decide (name = utf8 "reset") then reset_handler env update
      else ret tt
  | Text update => message_handler env update
  end.

(** Updates are handled one at a time (the application is built without
    concurrent updates); an exception a handler lets out is logged by the
    transport and the next update is taken. *)
Fixpoint handle_all (events : list (handler_env * inbound)) (w : runtime) : runtime :=
  match events with
  | [] => w
  | (env, i) :: rest => handle_all rest (snd (dispatch env i w))
  end.

(** A worker as [ManagedBot(...)] leaves it, with the shared client. *)
Definition fresh_worker (bot_id : Z) (bot_token system_prompt : str)
    (api : OnlySqAPI) : runtime :=
  Runtime (ManagedBot_init bot_id bot_token system_prompt) api [].

(** An endpoint that answers 200 with a well-formed body carrying
    [reply], and a transport that delivers. *)
Definition completion_body (reply : str) : value :=
  VDict [(utf8 "choices",
          VList [VDict [(utf8 "message",
                         VDict [(utf8 "role", VStr (utf8 "assistant"));
                                (utf8 "content", VStr reply)])]])].

Definition mocked_reply (reply : str) : handler_env :=
  {| post := λ _, Response 200 (Ok []) (Ok (completion_body reply));
     reply_result := None;
     apology_result := None |}.

(** The [n] exchanges [first], ..., [first + n - 1] of one user: message
    [msg i] answered by [reply i]. *)
Fixpoint exchanges (user_id : Z) (msg reply : nat → str) (first n : nat)
  : list (handler_env * inbound) :=
  match n with
  | O => []
  | S n' =>
      (mocked_reply (reply first),
       Text {| effective_user_id := user_id; message_text := msg first |})
      :: exchanges user_id msg reply (S first) n'
  end.

(** The gateway call has failed: the request raised (timeout, transport
    error), the status is not 200, or the body of a 200 cannot be decoded
    down to [choices[0].message.content]. *)
Definition gateway_failed (o : http_outcome) : bool :=
  match o with
  | PostRaises _ => true
  | Response status text json =>
      if negb (status =? 200) then true
      else match json with
           | Raise _ => true
           | Ok data =>
               match extract_content data with
               | Raise _ => true
               | Ok _ => false
               end
           end
  end.

(** ** main.py: the token validator *)

Section TokenValidation.

(** The test [str.isdigit] applies to each character (Unicode digits:
    the ten ASCII digits and more, such as superscript two).  The table
    belongs to the Python runtime; the validator is modelled over any
    table. *)
Variable isdigit_char : char → bool.

(** [s.isdigit()]: at least one character, and all of them digits. *)
Definition isdigit (s : str) : bool :=
  match s with
  | [] => false
  | _ :: _ => forallb isdigit_char s
  end.

(** [s.split(sep)] for a one-character separator. *)
Fixpoint split (sep : char) (s : str) : list str :=
  match s with
  | [] => [[]]
  | c :: rest =>
      if (c =? sep)%N then [] :: split sep rest
      else match split sep rest with
           | [] => [[c]]
           | part :: parts => (c :: part) :: parts
           end
  end.

Definition colon : char := 58%N.

Definition _validate_token (token : str) : result bool :=
  let parts := split colon token in
  if negb (length parts =? 2)%nat then Ok false
  else
    match seq_index parts 0 with
    | None => Raise IndexError
    | Some p0 =>
        if isdigit p0
        then match seq_index parts 1 with
             | None => Raise IndexError
             | Some p1 => Ok (20 <? length p1)%nat
             end
        else Ok false
    end.

End TokenValidation.

(** ** Closed forms used by the proofs *)

(** Lines 61-62: the history is cut to its last 20 entries when it has
    more. *)
Definition cap20 (h : list message) : list message :=
  if bool_decide (20 < length h)%nat then last_n 20 h else h.

(** The two kinds of turn the worker records. *)
Definition user_turn (text : str) : message := Message (utf8 "user") (VStr text).
Definition assistant_turn (response : value) : message := Message (utf8 "assistant") response.

(** The history lines 51-62 leave for a user whose history was [h]
    ([None]: no entry yet). *)
Definition with_user_turn (h : option (list message)) (text : str) : list message :=
  cap20 (default [] h ++ [user_turn text]).

(** The worker with [self.user_contexts[user_id] = h]. *)
Definition put_history (user_id : Z) (h : list message) (w : runtime) : runtime :=
  Runtime (set_user_contexts (λ ctxs, <[user_id := h]> ctxs) (self w)) (onlysq w) (outbox w).

(** The client once a session is open. *)
Definition open_api : OnlySqAPI := {| session := Some {| closed := false |} |}.

(** What [chat] returns ([chat_returns] shows that it always returns). *)
Definition chat_value (post : payload → http_outcome) (msgs : list message)
    (system_prompt model : str) (temperature : Q) : value :=
  match fst (chat post msgs system_prompt model temperature OnlySqAPI_init) with
  | Ok v => v
  | Raise _ => VNone
  end.

Definition with_onlysq (api : OnlySqAPI) (w : runtime) : runtime :=
  Runtime (self w) api (outbox w).

(** The transport has delivered [text] in answer to [user_id]. *)
Definition deliver (user_id : Z) (text : value) (w : runtime) : runtime :=
  Runtime (self w) (onlysq w) (outbox w ++ [(user_id, text)]).

(** The state the [try] of [message_handler] leaves once the gateway has
    answered [response]. *)
Definition answered (user_id : Z) (h : list message) (response : value)
    (w : runtime) : runtime :=
  put_history user_id (h ++ [assistant_turn response]) (with_onlysq open_api w).

(** The application [start_polling] builds for a token. *)
Definition polling_application (token : str) : Application :=
  {| app_token := token;
     app_handlers := [CommandHandler (utf8 "start") start_handler_cb;
                      CommandHandler (utf8 "reset") reset_handler_cb;
                      MessageHandler_text_not_command message_handler_cb] |}.

(** The first exception the transport raises during a start, if any. *)
Definition start_failure (env : start_env) : option exn :=
  match build_result env, initialize_result env, start_result env,
        updater_start_result env with
  | Some e, _, _, _ => Some e
  | None, Some e, _, _ => Some e
  | None, None, Some e, _ => Some e
  | None, None, None, r => r
  end.

(** The first exception the transport raises during the stop of a worker,
    if any. *)
Definition stop_failure (env : stop_env) (b : ManagedBot) : option exn :=
  match application b with
  | None => None
  | Some _ =>
      match updater_stop_result env, app_stop_result env, shutdown_result env with
      | Some e, _, _ => Some e
      | None, Some e, _ => Some e
      | None, None, r => r
      end
  end.

(** ** Statements of the specification and test fixtures *)

(** The spec's words for the outbound list: one system-role message
    carrying the behavior profile if and only if the profile is
    non-empty, then the caller's history, unchanged and in order. *)
Definition outbound_messages (history : list message) (behavior_profile : str)
  : list message :=
  (if bool_decide (behavior_profile ≠ [])
   then [Message (utf8 "system") (VStr behavior_profile)]
   else [])
  ++ history.

(** The JSON of one message, and an endpoint that answers every request
    with the list of messages it was sent. *)
Definition message_json (m : message) : value :=
  VDict [(utf8 "role", VStr (role m)); (utf8 "content", content m)].

Definition echo (p : payload) : http_outcome :=
  Response 200 (Ok [])
    (Ok (VDict [(utf8 "choices",
                 VList [VDict [(utf8 "message",
                                VDict [(utf8 "content",
                                        VList (map message_json (messages p)))])]])])).

(** The three texts [chat] returns in place of a completion. *)
Definition degraded_texts : list str :=
  [api_error_text; api_timeout_text; api_failure_text].

(** An endpoint whose request times out, and a transport that delivers. *)
Definition timed_out : handler_env :=
  {| post := λ _, PostRaises TimeoutError;
     reply_result := None;
     apology_result := None |}.

(** A worker with no history, and user 7 saying hello to it. *)
Definition tutor : runtime :=
  fresh_worker 1 (utf8 "1234567890:ABCdefGHIjklMNOpqrsTUVwxyz")
    (utf8 "friendly tutor") OnlySqAPI_init.

Definition hello : Update :=
  {| effective_user_id := 7; message_text := utf8 "hello" |}.

(** One exchange on a history: the user turn goes in and the history is
    cut, then the assistant turn goes in. *)
Definition exchange (h : list message) (question answer : str) : list message :=
  cap20 (h ++ [user_turn question]) ++ [assistant_turn (VStr answer)].

Fixpoint after_exchanges (msg reply : nat → str) (first n : nat)
    (h : list message) : list message :=
  match n with
  | O => h
  | S n' => after_exchanges msg reply (S first) n' (exchange h (msg first) (reply first))
  end.

(** Sample texts: message [i] is the letter q [i] times, reply [i] the
    letter a [i] times. *)
Definition question (i : nat) : str := replicate i 113%N.
Definition answer (i : nat) : str := replicate i 97%N.

(** The histories of a worker, a missing one read as empty. *)
Definition turns (w : runtime) (user_id : Z) : list message :=
  default [] (history w user_id).

Definition is_Ok {A} (r : result A) : bool :=
  match r with
  | Ok _ => true
  | Raise _ => false
  end.

(** A transport that accepts every call of a start, one that rejects the
    token when the application is built, and one that accepts every call
    of a stop. *)
Definition accepting : start_env :=
  {| build_result := None; initialize_result := None;
     start_result := None; updater_start_result := None |}.

Definition rejecting : start_env :=
  {| build_result := Some (OtherError (utf8 "InvalidToken"));
     initialize_result := None; start_result := None;
     updater_start_result := None |}.

Definition releasing : stop_env :=
  {| updater_stop_result := None; app_stop_result := None;
     shutdown_result := None |}.

Definition sample_token : str := utf8 "1234567890:ABCdefGHIjklMNOpqrsTUVwxyz".

(** The supervisor after tenant 1 has been started on an empty registry. *)
Definition one_running : BotManager :=
  snd (start_bot accepting 1 sample_token (utf8 "friendly tutor") BotManager_init).

(** A token whose part before the colon is empty, and its 21 characters
    after the colon. *)
Definition secret_21 : str := utf8 "aaaaaaaaaaaaaaaaaaaaa".
Definition no_identifier_token : str := utf8 ":aaaaaaaaaaaaaaaaaaaaa".

(** The least table [str.isdigit] can have: the ten ASCII digits. *)
Definition ascii_digit (c : char) : bool := (48 <=? c)%N && (c <=? 57)%N.

(** ** Further fixtures *)


(** ** bot_manager.py: stop_all, and runs of the supervisor *)

(** The loop of [stop_all] over the keys it has listed; [envs] says what
    the transport does during the stop of each tenant. *)
Fixpoint stop_each (envs : Z → stop_env) (keys : list Z) : M BotManager unit :=
  match keys with
  | [] => ret tt
  | bot_id :: rest =>
      stop_bot (envs bot_id) bot_id;;
      stop_each envs rest
  end.

Definition stop_all (envs : Z → stop_env) : M BotManager unit :=
  keys ← gets get_running_bots;
  stop_each envs keys.

(** A call on the supervisor, and a sequence of calls made one after the
    other. *)
Inductive supervisor_call : Type :=
| CallStart (env : start_env) (bot_id : Z) (bot_token system_prompt : str)
| CallStop (env : stop_env) (bot_id : Z)
| CallStopAll (envs : Z → stop_env).

Definition call (c : supervisor_call) (s : BotManager) : BotManager :=
  match c with
  | CallStart env bot_id bot_token system_prompt =>
      snd (start_bot env bot_id bot_token system_prompt s)
  | CallStop env bot_id => snd (stop_bot env bot_id s)
  | CallStopAll envs => snd (stop_all envs s)
  end.

Fixpoint run_calls (calls : list supervisor_call) (s : BotManager) : BotManager :=
  match calls with
  | [] => s
  | c :: rest => run_calls rest (call c s)
  end.

(** A transport on which [updater.stop()] fails. *)
Definition stuck : stop_env :=
  {| updater_stop_result := Some (OtherError (utf8 "RuntimeError"));
     app_stop_result := None;
     shutdown_result := None |}.

(** ** onlysq_api.py: generate_bot_prompt *)

Definition newline : str := [10%N].

(** The template [meta_prompt], before and after its one replacement
    field. *)
Definition meta_prompt_head : str :=
  utf8 "Ты - эксперт по созданию системных промптов для чат-ботов. "
  ++ utf8 "Пользователь описал, каким должен быть его бот. "
  ++ utf8 "Создай детальный системный промпт на русском языке, который определит:"
  ++ newline ++ utf8 "1. Личность и характер бота"
  ++ newline ++ utf8 "2. Стиль общения"
  ++ newline ++ utf8 "3. Основные функции и возможности"
  ++ newline ++ utf8 "4. Ограничения и правила поведения"
  ++ newline ++ newline ++ utf8 "Описание от пользователя: ".

Definition meta_prompt_tail : str :=
  newline ++ newline ++ utf8 "Сгенерируй системный промпт (150-300 слов):".

(** [meta_prompt.format(description=d)] *)
Definition meta_prompt_format (description : str) : str :=
  meta_prompt_head ++ description ++ meta_prompt_tail.

Definition generate_bot_prompt (post : payload → http_outcome)
    (user_description : str) : M OnlySqAPI value :=
  let msgs :=
    [Message (utf8 "user") (VStr (meta_prompt_format user_description))] in
  system_prompt ← chat post msgs [] (utf8 "gpt-4o-mini") (8 # 10);
  ret system_prompt.

(** The request has timed out: when it was sent, or while the body of
    the answer was read. *)
Definition timed_out_outcome (o : http_outcome) : bool :=
  match o with
  | PostRaises TimeoutError => true
  | PostRaises _ => false
  | Response status text json =>
      if negb (status =? 200)
      then match text with Raise TimeoutError => true | _ => false end
      else match json with Raise TimeoutError => true | _ => false end
  end.

(** A body that misses the key [choices], and a 201 that carries a
    completion. *)
Definition no_choices : value := VDict [(utf8 "error", VStr (utf8 "overloaded"))].

Definition created (p : payload) : http_outcome :=
  Response 201 (Ok (utf8 "{}")) (Ok (completion_body (utf8 "Hi there!"))).

(** ** database.py

    The table [bots] as the statements of the file use it: rows keyed by
    [id], and the largest [id] ever given out, which [AUTOINCREMENT] keeps.
    The columns [created_at] and [updated_at] are left out: the functions
    modelled here do not read them.  Statements on the local file are
    taken to succeed. *)

Record bot_row : Type := {
  row_user_id : Z;
  row_bot_name : str;
  row_bot_token : str;
  row_system_prompt : str;
  row_description : str;
  row_is_active : bool
}.

Record Database : Type := { rows : gmap Z bot_row; sequence : Z }.

(** The largest [id] in the table, 0 when it is empty. *)
Definition largest_id (table : gmap Z bot_row) : Z :=
  map_fold (λ k _ acc, Z.max k acc) 0 table.

(** [INSERT INTO bots (...) VALUES (...)]: the new [id] is one more than
    the largest there is or ever was; [is_active] takes its default, 1.
    The function returns [cursor.lastrowid]. *)
Definition create_bot (user_id : Z) (bot_name bot_token system_prompt description : str)
  : M Database Z :=
  d ← gets id;
  let new_id := 1 + Z.max (sequence d) (largest_id (rows d)) in
  modify (λ d, {| rows := <[new_id := {| row_user_id := user_id;
                                          row_bot_name := bot_name;
                                          row_bot_token := bot_token;
                                          row_system_prompt := system_prompt;
                                          row_description := description;
                                          row_is_active := true |}]> (rows d);
                  sequence := new_id |});;
  ret new_id.

(** [SELECT * FROM bots WHERE id = ?] and [fetchone()]. *)
Definition get_bot (bot_id : Z) : M Database (option bot_row) :=
  gets (λ d, rows d !! bot_id).

Definition set_is_active (is_active : bool) (r : bot_row) : bot_row :=
  {| row_user_id := row_user_id r; row_bot_name := row_bot_name r;
     row_bot_token := row_bot_token r; row_system_prompt := row_system_prompt r;
     row_description := row_description r; row_is_active := is_active |}.

(** [UPDATE bots SET is_active = ? ... WHERE id = ?] *)
Definition update_bot_status (bot_id : Z) (is_active : bool) : M Database unit :=
  modify (λ d, {| rows := alter (set_is_active is_active) bot_id (rows d);
                  sequence := sequence d |}).

(** [DELETE FROM bots WHERE id = ?] *)
Definition delete_bot (bot_id : Z) : M Database unit :=
  modify (λ d, {| rows := delete bot_id (rows d); sequence := sequence d |}).

(** ** main.py: the callbacks that stop, start and delete a bot *)

Record BotFactory : Type := Factory {
  bot_manager : BotManager;
  db : Database;
  replies : list (Z * str)
}.

(** A callback query: [update.effective_user.id] and
    [update.callback_query.data]. *)
Record CallbackUpdate : Type := { query_user_id : Z; query_data : str }.

(** What the outside does during one callback: the outcome of
    [query.answer()], of the worker's start or stop, and of
    [query.message.reply_text(...)]. *)
Record callback_env : Type := {
  answer_result : option exn;
  worker_start : start_env;
  worker_stop : stop_env;
  message_result : option exn
}.

Definition on_manager {A} (m : M BotManager A) : M BotFactory A :=
  λ f, let '(r, s) := m (bot_manager f) in (r, Factory s (db f) (replies f)).

Definition on_db {A} (m : M Database A) : M BotFactory A :=
  λ f, let '(r, d) := m (db f) in (r, Factory (bot_manager f) d (replies f)).

(** [await query.message.reply_text(text)] *)
Definition query_reply (r : option exn) (update : CallbackUpdate) (text : str)
  : M BotFactory unit :=
  external r;;
  modify (λ f, Factory (bot_manager f) (db f)
                 (replies f ++ [(query_user_id update, text)])).

Definition not_found_text : str := utf8 "❌ Бот не найден".
Definition stopped_text (bot_name : str) : str :=
  utf8 "⏸ Бот @" ++ bot_name ++ utf8 " остановлен".
Definition started_text (bot_name : str) : str :=
  utf8 "▶️ Бот @" ++ bot_name ++ utf8 " запущен".
Definition start_error_text (bot_name : str) : str :=
  utf8 "❌ Ошибка запуска бота @" ++ bot_name.
Definition deleted_text (bot_name : str) : str :=
  utf8 "🗑 Бот @" ++ bot_name ++ utf8 " удален".

Definition underscore : char := 95%N.

Section Callbacks.

(** Python's [int] on a [str]: the integer it denotes, or the
    [ValueError] it raises.  The conversion belongs to the Python runtime;
    the callbacks are modelled over any. *)
Variable int : str → result Z.

(** [int(query.data.split('_')[1])] *)
Definition query_bot_id (update : CallbackUpdate) : M BotFactory Z :=
  match seq_index (split underscore (query_data update)) 1 with
  | None => raise IndexError
  | Some part => lift (int part)
  end.

Definition stop_bot_callback (env : callback_env) (update : CallbackUpdate)
  : M BotFactory unit :=
  external (answer_result env);;
  bot_id ← query_bot_id update;
  bot ← on_db (get_bot bot_id);
  match bot with
  | None => query_reply (message_result env) update not_found_text
  | Some row =>
      if bool_decide (row_user_id row ≠ query_user_id update)
      then query_reply (message_result env) update not_found_text
      else
        on_manager (stop_bot (worker_stop env) bot_id);;
        on_db (update_bot_status bot_id false);;
        query_reply (message_result env) update (stopped_text (row_bot_name row))
  end.

Definition start_bot_callback (env : callback_env) (update : CallbackUpdate)
  : M BotFactory unit :=
  external (answer_result env);;
  bot_id ← query_bot_id update;
  bot ← on_db (get_bot bot_id);
  match bot with
  | None => query_reply (message_result env) update not_found_text
  | Some row =>
      if bool_decide (row_user_id row ≠ query_user_id update)
      then query_reply (message_result env) update not_found_text
      else
        success ← on_manager (start_bot (worker_start env) bot_id
                                (row_bot_token row) (row_system_prompt row));
        if success : bool
        then on_db (update_bot_status bot_id true);;
             query_reply (message_result env) update (started_text (row_bot_name row))
        else query_reply (message_result env) update
               (start_error_text (row_bot_name row))
  end.

Definition delete_bot_callback (env : callback_env) (update : CallbackUpdate)
  : M BotFactory unit :=
  external (answer_result env);;
  bot_id ← query_bot_id update;
  bot ← on_db (get_bot bot_id);
  match bot with
  | None => query_reply (message_result env) update not_found_text
  | Some row =>
      if bool_decide (row_user_id row ≠ query_user_id update)
      then query_reply (message_result env) update not_found_text
      else
        on_manager (stop_bot (worker_stop env) bot_id);;
        on_db (delete_bot bot_id);;
        query_reply (message_result env) update (deleted_text (row_bot_name row))
  end.

End Callbacks.

(** ** Fixtures for the database and the callbacks *)

(** Python's [int] on the strings of ASCII digits, which it reads in
    base ten; on any other string this conversion raises. *)
Fixpoint decimal_value (digits : str) (acc : Z) : result Z :=
  match digits with
  | [] => Ok acc
  | c :: rest =>
      if ascii_digit c then decimal_value rest (10 * acc + (Z.of_N c - 48))
      else Raise (OtherError (utf8 "ValueError"))
  end.

Definition decimal (s : str) : result Z :=
  match s with
  | [] => Raise (OtherError (utf8 "ValueError"))
  | _ :: _ => decimal_value s 0
  end.

(** A database with one row, bot 1 of user 7, and a factory on it in
    which bot 1 runs. *)
Definition tutor_row : bot_row :=
  {| row_user_id := 7; row_bot_name := utf8 "TutorBot";
     row_bot_token := sample_token; row_system_prompt := utf8 "friendly tutor";
     row_description := utf8 "a patient tutor"; row_is_active := true |}.

Definition one_row : Database := {| rows := {[ 1 := tutor_row ]}; sequence := 1 |}.

Definition small_factory : BotFactory := Factory one_running one_row [].

(** Callback environments: everything goes well; the worker cannot be
    stopped. *)
Definition smooth : callback_env :=
  {| answer_result := None; worker_start := accepting;
     worker_stop := releasing; message_result := None |}.

Definition wedged : callback_env :=
  {| answer_result := None; worker_start := accepting;
     worker_stop := stuck; message_result := None |}.

(** The requester owns the bot: there is a row for it, with the
    requester as its user. *)
Definition owns (f : BotFactory) (user_id bot_id : Z) : Prop :=
  ∃ row, rows (db f) !! bot_id = Some row ∧ row_user_id row = user_id.

(** Callback queries about bot 1: from its owner, user 7, and from
    user 8. *)
Definition owner_stops : CallbackUpdate :=
  {| query_user_id := 7; query_data := utf8 "stop_1" |}.
Definition owner_starts : CallbackUpdate :=
  {| query_user_id := 7; query_data := utf8 "start_1" |}.
Definition owner_deletes : CallbackUpdate :=
  {| query_user_id := 7; query_data := utf8 "delete_1" |}.
Definition stranger_stops : CallbackUpdate :=
  {| query_user_id := 8; query_data := utf8 "stop_1" |}.

(** The user an inbound update comes from. *)
Definition inbound_user (i : inbound) : Z :=
  match i with
  | Command _ update => effective_user_id update
  | Text update => effective_user_id update
  end.

(** The part of a stream that comes from one user. *)
Definition from_user (user_id : Z) (events : list (handler_env * inbound))
  : list (handler_env * inbound) :=
  filter (λ e, inbound_user e.2 = user_id) events.

(** * Proofs *)

Arguments utf8 : simpl never.

(** ** Steps of the monad *)

Section MonadSteps.
Context {S A B : Type}.

Lemma bind_Ok (m : M S A) (k : A → M S B) s a s' :
    m s = (Ok a, s') → (m ≫= k) s = k a s'.
Proof. intros H. unfold mbind, M_bind, bind. by rewrite H. Qed.

Lemma bind_Raise (m : M S A) (k : A → M S B) s e s' :
    m s = (Raise e, s') → (m ≫= k) s = (Raise e, s').
Proof. intros H. unfold mbind, M_bind, bind. by rewrite H. Qed.
End MonadSteps.

Lemma history_put_eq u h w : history (put_history u h w) u = Some h.
Proof. unfold history, put_history; simpl. apply lookup_insert_eq. Qed.

Lemma history_put_ne u v h w : u ≠ v → history (put_history u h w) v = history w v.
Proof. intros. unfold history, put_history; simpl. by apply lookup_insert_ne. Qed.

Lemma put_put u h h' w : put_history u h' (put_history u h w) = put_history u h' w.
Proof. unfold put_history, set_user_contexts; simpl. by rewrite insert_insert_eq. Qed.

Lemma on_self_contexts w : on_self (gets user_contexts) w = (Ok (user_contexts (self w)), w).
Proof. by destruct w. Qed.

Lemma on_self_prompt w : on_self (gets system_prompt) w = (Ok (system_prompt (self w)), w).
Proof. by destruct w. Qed.

Lemma on_self_set u h w : on_self (set_context u h) w = (Ok (), put_history u h w).
Proof. reflexivity. Qed.

Lemma on_self_get u h w :
  history w u = Some h → on_self (get_context u) w = (Ok h, w).
Proof.
  unfold history, on_self, get_context, mbind, M_bind, bind, gets.
  intros ->. by destruct w.
Qed.

Lemma on_self_append u m h w :
  history w u = Some h →
  on_self (append_context u m) w = (Ok (), put_history u (h ++ [m]) w).
Proof.
  unfold history, on_self, append_context, get_context, mbind, M_bind, bind, gets.
  intros ->. reflexivity.
Qed.

Lemma record_user_turn_spec update w :
  record_user_turn update w =
    (Ok (), put_history (effective_user_id update)
              (with_user_turn (history w (effective_user_id update)) (message_text update)) w).
Proof.
  unfold record_user_turn, with_user_turn, cap20.
  set (u := effective_user_id update). fold (user_turn (message_text update)).
  set (m := user_turn _).
  rewrite (bind_Ok _ _ _ _ _ (on_self_contexts w)).
  assert (∀ w1, history w1 u = Some (default [] (history w u)) →
               (∀ h, put_history u h w1 = put_history u h w) →
    (on_self (append_context u m);;
     h ← on_self (get_context u);
     (if bool_decide (20 < length h)%nat
      then h0 ← on_self (get_context u); on_self (set_context u (last_n 20 h0))
      else ret ())) w1 =
    (Ok (), put_history u
       (if bool_decide (20 < length (default [] (history w u) ++ [m]))%nat
        then last_n 20 (default [] (history w u) ++ [m])
        else default [] (history w u) ++ [m]) w)) as Hrest.
  { intros w1 Hw1 Hput.
    erewrite bind_Ok by (by apply on_self_append).
    erewrite bind_Ok by (apply on_self_get, history_put_eq).
    rewrite Hput. case_bool_decide.
    - erewrite bind_Ok by (apply on_self_get, history_put_eq).
      by rewrite on_self_set, put_put.
    - reflexivity. }
  destruct (decide (u ∉ dom (user_contexts (self w)))) as [Hd|Hd].
  - rewrite (bool_decide_eq_true_2 _ Hd).
    erewrite bind_Ok by apply on_self_set.
    apply not_elem_of_dom in Hd. fold (history w u) in Hd.
    apply Hrest.
    + by rewrite Hd, history_put_eq.
    + intros; apply put_put.
  - rewrite (bool_decide_eq_false_2 _ Hd).
    erewrite bind_Ok by reflexivity.
    apply dec_stable, elem_of_dom in Hd as [h Hh]. fold (history w u) in Hh.
    apply Hrest; [by rewrite Hh | done].
Qed.

Lemma _get_session_opens api : _get_session api = (Ok {| closed := false |}, open_api).
Proof. destruct api as [[[[]]|]]; reflexivity. Qed.

Lemma chat_returns post msgs sp m t api :
  chat post msgs sp m t api = (Ok (chat_value post msgs sp m t), open_api).
Proof.
  unfold chat_value, chat, mbind, M_bind, bind, try_except.
  rewrite !_get_session_opens. unfold chat_request.
  destruct (post _) as [e|status text json].
  - destruct e; reflexivity.
  - destruct (negb _).
    + destruct text as [x|[]]; reflexivity.
    + destruct json as [data|[]]; try reflexivity.
      unfold mbind, M_bind, lift, bind.
      destruct (extract_content data) as [v|[]]; reflexivity.
Qed.

(** A closed session is no obstacle: the next call opens one. *)
Lemma chat_after_close post msgs sp m t api :
  chat post msgs sp m t (snd (close api))
  = (Ok (chat_value post msgs sp m t), open_api).
Proof. apply chat_returns. Qed.

Lemma on_onlysq_chat post msgs sp m t w :
  on_onlysq (chat post msgs sp m t) w =
    (Ok (chat_value post msgs sp m t), with_onlysq open_api w).
Proof. unfold on_onlysq. by rewrite chat_returns. Qed.

Lemma reply_text_spec r update text w :
  reply_text r update text w =
    match r with
    | None => (Ok (), deliver (effective_user_id update) text w)
    | Some e => (Raise e, w)
    end.
Proof. by destruct r. Qed.

Lemma history_with_onlysq api w u : history (with_onlysq api w) u = history w u.
Proof. reflexivity. Qed.

Lemma history_deliver v text w u : history (deliver v text w) u = history w u.
Proof. reflexivity. Qed.

Lemma answer_user_turn_spec env update w h :
  history w (effective_user_id update) = Some h →
  let u := effective_user_id update in
  let response :=
    chat_value (post env) h (system_prompt (self w)) default_model default_temperature in
  answer_user_turn env update w =
    match reply_result env with
    | None => (Ok (), deliver u response (answered u h response w))
    | Some _ =>
        match apology_result env with
        | None => (Ok (), deliver u (VStr apology_text) (answered u h response w))
        | Some e => (Raise e, answered u h response w)
        end
    end.
Proof.
  intros Hh u response. unfold answer_user_turn, try_except. fold u.
  erewrite bind_Ok by (by apply on_self_get).
  erewrite bind_Ok by apply on_self_prompt.
  erewrite bind_Ok by apply on_onlysq_chat.
  erewrite bind_Ok by (by apply on_self_append).
  fold response. fold (assistant_turn response). fold (answered u h response w).
  rewrite !reply_text_spec. by destruct (reply_result env), (apology_result env).
Qed.

Lemma message_handler_spec env update w :
  let u := effective_user_id update in
  let h := with_user_turn (history w u) (message_text update) in
  let response :=
    chat_value (post env) h (system_prompt (self w)) default_model default_temperature in
  message_handler env update w =
    match reply_result env with
    | None => (Ok (), deliver u response (answered u h response w))
    | Some _ =>
        match apology_result env with
        | None => (Ok (), deliver u (VStr apology_text) (answered u h response w))
        | Some e => (Raise e, answered u h response w)
        end
    end.
Proof.
  intros u h response. unfold message_handler.
  erewrite bind_Ok by apply record_user_turn_spec.
  rewrite (answer_user_turn_spec env update _ h) by apply history_put_eq.
  fold u h. unfold answered. simpl. fold response.
  replace (put_history u (h ++ [assistant_turn response])
             (with_onlysq open_api (put_history u h w)))
    with (put_history u (h ++ [assistant_turn response]) (with_onlysq open_api w)).
  - reflexivity.
  - unfold put_history, with_onlysq, set_user_contexts; simpl. by rewrite insert_insert_eq.
Qed.

Lemma history_answered_eq u h r w : history (answered u h r w) u = Some (h ++ [assistant_turn r]).
Proof. apply history_put_eq. Qed.

Lemma history_answered_ne u v h r w : u ≠ v → history (answered u h r w) v = history w v.
Proof. intros. unfold answered. by rewrite history_put_ne. Qed.

Lemma message_handler_history env update w :
  let u := effective_user_id update in
  let h := with_user_turn (history w u) (message_text update) in
  history (snd (message_handler env update w)) u =
    Some (h ++ [assistant_turn
                  (chat_value (post env) h (system_prompt (self w))
                     default_model default_temperature)]).
Proof.
  intros u h. rewrite message_handler_spec. fold u h.
  destruct (reply_result env), (apology_result env); apply history_answered_eq.
Qed.

Lemma message_handler_history_ne env update w v :
  effective_user_id update ≠ v →
  history (snd (message_handler env update w)) v = history w v.
Proof.
  intros Hne. rewrite message_handler_spec.
  destruct (reply_result env), (apology_result env); simpl;
    rewrite ?history_deliver; by apply history_answered_ne.
Qed.

Lemma start_polling_spec env b :
  start_polling env b =
    match start_failure env with
    | None => (Ok (), set_application (Some (polling_application (bot_token b))) b)
    | Some e =>
        (Raise e,
         match build_result env with
         | Some _ => b
         | None => set_application (Some (polling_application (bot_token b))) b
         end)
    end.
Proof.
  destruct env as [[?|] [?|] [?|] [?|]]; reflexivity.
Qed.

Lemma stop_spec env b :
  stop env b =
    (match stop_failure env b with None => Ok () | Some e => Raise e end, b).
Proof.
  unfold stop, stop_failure, mbind, M_bind, bind, gets.
  destruct (application b); [|reflexivity].
  destruct env as [[?|] [?|] [?|]]; reflexivity.
Qed.

Lemma start_bot_spec env bot_id tok sp s :
  start_bot env bot_id tok sp s =
    if bool_decide (bot_id ∈ dom (bots s)) then (Ok false, s)
    else match start_failure env with
         | None =>
             (Ok true,
              {| bots := <[bot_id := set_application (Some (polling_application tok))
                                        (ManagedBot_init bot_id tok sp)]> (bots s) |})
         | Some _ => (Ok false, s)
         end.
Proof.
  unfold start_bot, try_except, mbind, M_bind, bind, gets, on_new.
  case_bool_decide; [reflexivity|].
  rewrite start_polling_spec. by destruct (start_failure env).
Qed.

Lemma stop_bot_spec env bot_id s :
  stop_bot env bot_id s =
    match bots s !! bot_id with
    | None => (Ok false, s)
    | Some b =>
        match stop_failure env b with
        | None => (Ok true, {| bots := delete bot_id (bots s) |})
        | Some _ => (Ok false, s)
        end
    end.
Proof.
  destruct s as [bs].
  unfold stop_bot, try_except, del_bot, on_registered, mbind, M_bind, bind, gets, modify, ret.
  cbv [bots].
  destruct (decide (bot_id ∉ dom bs)) as [Hd|Hd].
  - rewrite (bool_decide_eq_true_2 _ Hd). apply not_elem_of_dom in Hd. by rewrite Hd.
  - rewrite (bool_decide_eq_false_2 _ Hd).
    apply dec_stable, elem_of_dom in Hd as [b Hb].
    rewrite Hb, stop_spec, (insert_id _ _ _ Hb).
    destruct (stop_failure env b); [reflexivity|].
    by rewrite Hb.
Qed.

Lemma elem_of_get_running_bots bot_id s :
  bot_id ∈ get_running_bots s ↔ is_Some (bots s !! bot_id).
Proof. unfold get_running_bots. by rewrite elem_of_elements, elem_of_dom. Qed.

(** ** The gateway client *)

Lemma full_messages_outbound msgs sp : full_messages msgs sp = outbound_messages msgs sp.
Proof. unfold full_messages, outbound_messages. by destruct sp. Qed.

(** C7. For every history and behavior profile, the message list [chat]
    puts in its payload is the system message carrying the profile, present
    exactly when the profile is non-empty, followed by the caller's history
    unchanged; an endpoint that echoes what it is sent shows that this list
    is what goes out. *)
Theorem chat_sends_system_prompt_then_history
    (msgs : list message) (sp model : str) (temperature : Q) (api : OnlySqAPI) :
  messages (chat_payload msgs sp model temperature) = outbound_messages msgs sp
  ∧ chat echo msgs sp model temperature api
    = (Ok (VList (map message_json (outbound_messages msgs sp))), open_api).
Proof.
  split.
  - apply full_messages_outbound.
  - rewrite chat_returns. f_equal. f_equal.
    unfold chat_value, chat, try_except, mbind, M_bind, bind.
    rewrite _get_session_opens.
    unfold chat_request, echo, chat_payload, messages.
    rewrite full_messages_outbound. reflexivity.
Qed.

(** ** The worker's message handler *)

Lemma degraded_texts_error : api_error_text ∈ degraded_texts.
Proof. apply list_elem_of_here. Qed.

Lemma degraded_texts_timeout : api_timeout_text ∈ degraded_texts.
Proof. apply list_elem_of_further, list_elem_of_here. Qed.

Lemma degraded_texts_failure : api_failure_text ∈ degraded_texts.
Proof. do 2 apply list_elem_of_further. apply list_elem_of_here. Qed.

Ltac degraded :=
  cbv beta iota zeta delta [raise ret lift fst mbind M_bind bind];
  lazymatch goal with
  | |- ∃ _, _ ∧ VStr ?t = VStr _ =>
      exists t; split; [| reflexivity];
      lazymatch t with
      | api_error_text => apply degraded_texts_error
      | api_timeout_text => apply degraded_texts_timeout
      | api_failure_text => apply degraded_texts_failure
      end
  end.

Lemma chat_value_failed post msgs sp m t :
  gateway_failed (post (chat_payload msgs sp m t)) = true →
  ∃ text, text ∈ degraded_texts ∧ chat_value post msgs sp m t = VStr text.
Proof.
  unfold chat_value, chat, try_except, mbind, M_bind, bind.
  rewrite _get_session_opens. unfold chat_request, gateway_failed.
  destruct (post _) as [e|status text json].
  - intros _. destruct e; degraded.
  - destruct (negb _).
    + intros _. destruct text as [x|[]]; degraded.
    + destruct json as [data|e].
      * unfold mbind, M_bind, lift, bind.
        destruct (extract_content data) as [v|e]; [done|].
        intros _. destruct e; degraded.
      * intros _. destruct e; degraded.
Qed.

Lemma record_user_turn_history update w :
  history (snd (record_user_turn update w)) (effective_user_id update)
  = Some (with_user_turn (history w (effective_user_id update)) (message_text update)).
Proof. rewrite record_user_turn_spec. apply history_put_eq. Qed.

Lemma message_handler_outbox env update w :
  let u := effective_user_id update in
  let h := with_user_turn (history w u) (message_text update) in
  outbox (snd (message_handler env update w))
  = outbox w ++
    match reply_result env with
    | None => [(u, chat_value (post env) h (system_prompt (self w))
                     default_model default_temperature)]
    | Some _ =>
        match apology_result env with
        | None => [(u, VStr apology_text)]
        | Some _ => []
        end
    end.
Proof.
  intros u h. rewrite message_handler_spec. fold u h.
  destruct (reply_result env), (apology_result env); simpl;
    by rewrite ?app_nil_r.
Qed.

(** C1, as the code has it. For every inbound message whose gateway call
    fails (the request raises or times out, the status is not 200, or the
    body cannot be decoded), [chat] returns one of its three fixed texts;
    the handler appends an assistant turn carrying that text to the
    history left by the user turn, and sends that text as the reply.  The
    handler's own apology goes out only when that reply cannot be
    delivered. *)
Theorem failed_gateway_text_is_recorded_and_sent
    (env : handler_env) (update : Update) (w : runtime) (h : list message) :
  history (snd (record_user_turn update w)) (effective_user_id update) = Some h →
  gateway_failed
    (post env (chat_payload h (system_prompt (self w))
                 default_model default_temperature)) = true →
  ∃ text, text ∈ degraded_texts
    ∧ history (snd (message_handler env update w)) (effective_user_id update)
      = Some (h ++ [assistant_turn (VStr text)])
    ∧ outbox (snd (message_handler env update w))
      = outbox w ++
        match reply_result env with
        | None => [(effective_user_id update, VStr text)]
        | Some _ =>
            match apology_result env with
            | None => [(effective_user_id update, VStr apology_text)]
            | Some _ => []
            end
        end.
Proof.
  rewrite record_user_turn_history. intros [= <-] Hfail.
  apply chat_value_failed in Hfail as (text & Hin & Hval).
  exists text. split; [done|].
  rewrite message_handler_history, message_handler_outbox, Hval. done.
Qed.

Lemma failed_gateway_text_is_recorded_and_sent_witness :
  history (snd (record_user_turn hello tutor)) 7 = Some [user_turn (utf8 "hello")]
  ∧ ∃ text, text ∈ degraded_texts
    ∧ history (snd (message_handler timed_out hello tutor)) 7
      = Some ([user_turn (utf8 "hello")] ++ [assistant_turn (VStr text)])
    ∧ outbox (snd (message_handler timed_out hello tutor))
      = [] ++ [(7, VStr text)].
Proof.
  split; [vm_compute; reflexivity|].
  apply (failed_gateway_text_is_recorded_and_sent timed_out hello tutor
           [user_turn (utf8 "hello")]); vm_compute; reflexivity.
Defined.

(** C1, as the spec has it, fails when the request times out: the history
    after the handler is not the history the user turn left (it has one
    more entry, an assistant turn carrying the text [chat] returned), and
    what is sent is that text, not the handler's apology. *)
Lemma gateway_timeout_is_recorded_as_assistant_turn :
  gateway_failed
    (post timed_out (chat_payload [user_turn (utf8 "hello")] (utf8 "friendly tutor")
                       default_model default_temperature)) = true
  ∧ history (snd (record_user_turn hello tutor)) 7 = Some [user_turn (utf8 "hello")]
  ∧ history (snd (message_handler timed_out hello tutor)) 7
    = Some [user_turn (utf8 "hello"); assistant_turn (VStr api_timeout_text)]
  ∧ outbox (snd (message_handler timed_out hello tutor)) = [(7, VStr api_timeout_text)]
  ∧ history (snd (message_handler timed_out hello tutor)) 7
    ≠ history (snd (record_user_turn hello tutor)) 7
  ∧ outbox (snd (message_handler timed_out hello tutor)) ≠ [(7, VStr apology_text)].
Proof.
  repeat split; try (vm_compute; reflexivity); vm_compute; discriminate.
Qed.

(** ** The start and reset commands *)

Lemma reset_handler_spec env update w :
  reset_handler env update w =
    let w' := put_history (effective_user_id update) [] w in
    match reply_result env with
    | None => (Ok (), deliver (effective_user_id update) (VStr reset_text) w')
    | Some e => (Raise e, w')
    end.
Proof.
  unfold reset_handler.
  erewrite bind_Ok by apply on_self_set.
  apply reply_text_spec.
Qed.

Lemma start_handler_spec env update w :
  start_handler env update w =
    let w' := put_history (effective_user_id update) [] w in
    match reply_result env with
    | None => (Ok (), deliver (effective_user_id update) (VStr greeting_text) w')
    | Some e => (Raise e, w')
    end.
Proof.
  unfold start_handler.
  erewrite bind_Ok by apply on_self_set.
  apply reply_text_spec.
Qed.

(** C9. For every user, the reset command leaves that user's history
    empty, whether or not there was one, and returns whenever the
    transport delivers the confirmation; the history of any other user is
    what it was. *)
Theorem reset_clears_only_the_invoking_user
    (env : handler_env) (update : Update) (w : runtime) (v : Z) :
  effective_user_id update ≠ v →
  history (snd (reset_handler env update w)) (effective_user_id update) = Some []
  ∧ history (snd (reset_handler env update w)) v = history w v
  ∧ fst (reset_handler env update w)
    = match reply_result env with None => Ok () | Some e => Raise e end
  ∧ outbox (snd (reset_handler env update w))
    = outbox w ++
      match reply_result env with
      | None => [(effective_user_id update, VStr reset_text)]
      | Some _ => []
      end.
Proof.
  intros Hne. rewrite reset_handler_spec.
  destruct (reply_result env); cbv zeta; cbv [fst snd];
    rewrite ?history_deliver, history_put_eq, history_put_ne by done;
    repeat split; unfold put_history; simpl; by rewrite ?app_nil_r.
Qed.

Lemma reset_clears_only_the_invoking_user_witness :
  history tutor 7 = None
  ∧ history (snd (reset_handler timed_out hello tutor)) 7 = Some []
  ∧ history (snd (reset_handler timed_out hello tutor)) 8 = history tutor 8
  ∧ fst (reset_handler timed_out hello tutor) = Ok ()
  ∧ outbox (snd (reset_handler timed_out hello tutor)) = [] ++ [(7, VStr reset_text)].
Proof.
  split; [reflexivity|].
  apply (reset_clears_only_the_invoking_user timed_out hello tutor 8).
  vm_compute. discriminate.
Defined.

(** ** The bound on a history *)

Lemma length_last_n {A} n (l : list A) : (length (last_n n l) ≤ n)%nat.
Proof. unfold last_n. rewrite length_drop. lia. Qed.

Lemma length_cap20 h : (length (cap20 h) ≤ 20)%nat.
Proof.
  unfold cap20. case_bool_decide; [apply length_last_n | lia].
Qed.

Lemma turns_put u h w v :
  turns (put_history u h w) v = if decide (u = v) then h else turns w v.
Proof.
  unfold turns. case_decide as Huv.
  - subst. by rewrite history_put_eq.
  - by rewrite history_put_ne.
Qed.

Lemma dispatch_bounded env i w :
  (∀ u, (length (turns w u) ≤ 21)%nat) →
  ∀ u, (length (turns (snd (dispatch env i w)) u) ≤ 21)%nat.
Proof.
  intros Hw u. destruct i as [name update|update]; unfold dispatch.
  - assert (length (turns (put_history (effective_user_id update) [] w) u) ≤ 21)%nat
      as Hput.
    { rewrite turns_put. case_decide; [simpl; lia | apply Hw]. }
    repeat case_bool_decide.
    + rewrite start_handler_spec. by destruct (reply_result env).
    + rewrite reset_handler_spec. by destruct (reply_result env).
    + apply Hw.
  - unfold turns. destruct (decide (effective_user_id update = u)) as [<-|Hne].
    + rewrite message_handler_history. simpl. rewrite length_app. simpl.
      pose proof (length_cap20
        (default [] (history w (effective_user_id update))
         ++ [user_turn (message_text update)])).
      unfold with_user_turn. lia.
    + rewrite message_handler_history_ne by done. apply Hw.
Qed.

Lemma handle_all_bounded events w :
  (∀ u, (length (turns w u) ≤ 21)%nat) →
  ∀ u, (length (turns (handle_all events w) u) ≤ 21)%nat.
Proof.
  revert w. induction events as [|[env i] events IH]; intros w Hw; [done|].
  simpl. apply IH. by apply dispatch_bounded.
Qed.

(** C2, as the code has it. Whatever the worker has handled since it was
    built (commands and texts of any users, whatever the gateway and the
    transport did), no history has more than 21 turns once a handler is
    over, and the history a handler passes to the gateway, cut after the
    user turn, has no more than 20. *)
Theorem history_never_exceeds_21
    (events : list (handler_env * inbound)) (bot_id : Z) (bot_token prompt : str)
    (api : OnlySqAPI) (u : Z) (update : Update) :
  (length (turns (handle_all events (fresh_worker bot_id bot_token prompt api)) u)
   ≤ 21)%nat
  ∧ (length (turns (snd (record_user_turn update
                           (handle_all events (fresh_worker bot_id bot_token prompt api))))
               (effective_user_id update))
     ≤ 20)%nat.
Proof.
  split.
  - apply handle_all_bounded. intros v. unfold turns, history, fresh_worker. simpl.
    rewrite lookup_empty. simpl. lia.
  - unfold turns. rewrite record_user_turn_history. simpl. apply length_cap20.
Qed.

(** C2, as the spec has it, fails at the eleventh exchange: the cut comes
    after the user turn only, so the assistant turn makes 21. *)
Lemma eleventh_exchange_leaves_21_turns :
  length (turns (handle_all (exchanges 7 question answer 1 11) tutor) 7) = 21%nat
  ∧ ¬ (length (turns (handle_all (exchanges 7 question answer 1 11) tutor) 7) ≤ 20)%nat.
Proof.
  assert (length (turns (handle_all (exchanges 7 question answer 1 11) tutor) 7)
          = 21%nat) as H by (vm_compute; reflexivity).
  split; [exact H | rewrite H; lia].
Qed.

(** ** Twenty-five exchanges *)

Lemma chat_value_mocked reply p msgs sp m t :
  post (mocked_reply reply) p = Response 200 (Ok []) (Ok (completion_body reply))
  ∧ chat_value (post (mocked_reply reply)) msgs sp m t = VStr reply.
Proof. split; reflexivity. Qed.

Lemma dispatch_mocked_exchange u m r w :
  turns (snd (dispatch (mocked_reply r)
                (Text {| effective_user_id := u; message_text := m |}) w)) u
  = exchange (turns w u) m r
  ∧ is_Some (history (snd (dispatch (mocked_reply r)
                (Text {| effective_user_id := u; message_text := m |}) w)) u).
Proof.
  unfold dispatch, turns, exchange.
  set (update := {| effective_user_id := u; message_text := m |}).
  change u with (effective_user_id update).
  rewrite message_handler_history.
  rewrite (proj2 (chat_value_mocked r (chat_payload [] [] [] 0) _ _ _ _)).
  split; [reflexivity | by eexists].
Qed.

Lemma handle_all_exchanges u msg reply n first w :
  turns (handle_all (exchanges u msg reply first n) w) u
  = after_exchanges msg reply first n (turns w u).
Proof.
  revert first w. induction n as [|n IH]; intros first w; [done|].
  simpl. rewrite IH. f_equal. apply dispatch_mocked_exchange.
Qed.

Lemma handle_all_exchanges_is_Some u msg reply n first w :
  is_Some (history w u) →
  is_Some (history (handle_all (exchanges u msg reply first n) w) u).
Proof.
  revert first w. induction n as [|n IH]; intros first w Hw; [done|].
  simpl. apply IH, dispatch_mocked_exchange.
Qed.

Lemma handle_all_exchanges_S_is_Some u msg reply n first w :
  is_Some (history (handle_all (exchanges u msg reply first (S n)) w) u).
Proof.
  change (exchanges u msg reply first (S n))
    with ((mocked_reply (reply first),
           Text {| effective_user_id := u; message_text := msg first |})
          :: exchanges u msg reply (S first) n).
  change (handle_all (?e :: ?rest) w)
    with (handle_all rest (snd (dispatch e.1 e.2 w))).
  apply handle_all_exchanges_is_Some, dispatch_mocked_exchange.
Qed.

Lemma after_25_exchanges msg reply :
  after_exchanges msg reply 1 25 []
  = assistant_turn (VStr (reply 15%nat))
    :: concat (map (λ i, [user_turn (msg i); assistant_turn (VStr (reply i))])
                 (seq 16 10)).
Proof. vm_compute. reflexivity. Qed.

Lemma turns_fresh_worker bot_id bot_token prompt api u :
  turns (fresh_worker bot_id bot_token prompt api) u = [].
Proof. unfold turns, history, fresh_worker. simpl. by rewrite lookup_empty. Qed.

Lemma turns_is_Some w u h : is_Some (history w u) → turns w u = h → history w u = Some h.
Proof. unfold turns. intros [h' ->]. simpl. by intros ->. Qed.

(** C3, as the code has it. From an empty history, 25 messages of one
    user, each answered by a successful reply, leave 21 turns: the reply
    to the 15th message first, then the 16th to 25th messages, each
    followed by its reply. *)
Theorem twenty_five_exchanges_leave_21_turns
    (u : Z) (msg reply : nat → str) (bot_id : Z) (bot_token prompt : str)
    (api : OnlySqAPI) :
  let w := handle_all (exchanges u msg reply 1 25)
             (fresh_worker bot_id bot_token prompt api) in
  history w u
  = Some (assistant_turn (VStr (reply 15%nat))
          :: concat (map (λ i, [user_turn (msg i); assistant_turn (VStr (reply i))])
                       (seq 16 10)))
  ∧ length (turns w u) = 21%nat
  ∧ head (turns w u) = Some (assistant_turn (VStr (reply 15%nat))).
Proof.
  intros w.
  assert (turns w u = after_exchanges msg reply 1 25 []) as Hturns.
  { unfold w. by rewrite handle_all_exchanges, turns_fresh_worker. }
  rewrite after_25_exchanges in Hturns.
  split; [|split].
  - apply turns_is_Some; [apply handle_all_exchanges_S_is_Some | exact Hturns].
  - rewrite Hturns. reflexivity.
  - rewrite Hturns. reflexivity.
Qed.

(** C3, as the spec has it, fails: after the 25 exchanges the history has
    21 turns, not 20, and its first entry is the reply to the 15th
    message, not the 6th message. *)
Lemma twenty_five_exchanges_do_not_leave_20_turns :
  length (turns (handle_all (exchanges 7 question answer 1 25) tutor) 7) = 21%nat
  ∧ head (turns (handle_all (exchanges 7 question answer 1 25) tutor) 7)
    = Some (assistant_turn (VStr (answer 15)))
  ∧ length (turns (handle_all (exchanges 7 question answer 1 25) tutor) 7) ≠ 20%nat
  ∧ head (turns (handle_all (exchanges 7 question answer 1 25) tutor) 7)
    ≠ Some (user_turn (question 6)).
Proof.
  repeat split; try (vm_compute; reflexivity); vm_compute; discriminate.
Qed.

(** ** The supervisor *)

Lemma is_Ok_start_polling env b :
  is_Ok (fst (start_polling env b)) = true ↔ start_failure env = None.
Proof. rewrite start_polling_spec. by destruct (start_failure env). Qed.

Lemma is_Ok_stop env b :
  is_Ok (fst (stop env b)) = true ↔ stop_failure env b = None.
Proof. rewrite stop_spec. by destruct (stop_failure env b). Qed.

(** C4. For every tenant identifier: when a start returns true the
    tenant is in the list of running tenants, and when a stop of that
    tenant, from whatever state the supervisor is in by then, returns true
    the tenant is no longer in the list. *)
Theorem started_is_listed_and_stopped_is_not
    (e1 : start_env) (bot_id : Z) (bot_token prompt : str) (s0 s1 : BotManager)
    (e2 : stop_env) (s2 s3 : BotManager) :
  start_bot e1 bot_id bot_token prompt s0 = (Ok true, s1) →
  stop_bot e2 bot_id s2 = (Ok true, s3) →
  bot_id ∈ get_running_bots s1 ∧ bot_id ∉ get_running_bots s3.
Proof.
  rewrite start_bot_spec, stop_bot_spec. intros Hstart Hstop. split.
  - apply elem_of_get_running_bots.
    case_bool_decide; [done|].
    destruct (start_failure e1); [done|].
    injection Hstart as <-. simpl. rewrite lookup_insert_eq. by eexists.
  - rewrite elem_of_get_running_bots.
    destruct (bots s2 !! bot_id) as [b|]; [|done].
    destruct (stop_failure e2 b); [done|].
    injection Hstop as <-. simpl. rewrite lookup_delete_eq. by intros [? ?].
Qed.

Lemma started_is_listed_and_stopped_is_not_witness :
  1 ∈ get_running_bots one_running
  ∧ 1 ∉ get_running_bots (snd (stop_bot releasing 1 one_running)).
Proof.
  apply (started_is_listed_and_stopped_is_not
           accepting 1 sample_token (utf8 "friendly tutor") BotManager_init one_running
           releasing one_running (snd (stop_bot releasing 1 one_running)));
    vm_compute; reflexivity.
Defined.

(** C6. For every tenant identifier that is not in the registry, stop
    returns false and the supervisor, registry and workers, is what it
    was. *)
Theorem stop_of_unknown_tenant_changes_nothing
    (env : stop_env) (bot_id : Z) (s : BotManager) :
  bots s !! bot_id = None →
  stop_bot env bot_id s = (Ok false, s).
Proof. intros H. by rewrite stop_bot_spec, H. Qed.

Lemma stop_of_unknown_tenant_changes_nothing_witness :
  bots one_running !! 2 = None
  ∧ stop_bot releasing 2 one_running = (Ok false, one_running).
Proof.
  assert (bots one_running !! 2 = None) as H by (vm_compute; reflexivity).
  split; [exact H|].
  apply (stop_of_unknown_tenant_changes_nothing releasing 2 one_running H).
Defined.

(** C8. For every input, start and stop return a boolean and let no
    exception out: start returns true exactly when the tenant was not
    registered and the worker's start returned, stop exactly when the
    tenant was registered and the worker's stop returned; a worker that
    raises makes the result false. *)
Theorem start_and_stop_return_a_boolean
    (e1 : start_env) (e2 : stop_env) (bot_id : Z) (bot_token prompt : str)
    (s : BotManager) :
  fst (start_bot e1 bot_id bot_token prompt s)
  = Ok (bool_decide (bot_id ∉ dom (bots s))
        && is_Ok (fst (start_polling e1 (ManagedBot_init bot_id bot_token prompt))))
  ∧ fst (stop_bot e2 bot_id s)
    = Ok (match bots s !! bot_id with
          | Some b => is_Ok (fst (stop e2 b))
          | None => false
          end).
Proof.
  rewrite start_bot_spec, stop_bot_spec, start_polling_spec. split.
  - destruct (decide (bot_id ∈ dom (bots s))) as [Hd|Hd].
    + rewrite (bool_decide_eq_true_2 _ Hd).
      by rewrite bool_decide_eq_false_2 by (by intros ?).
    + rewrite (bool_decide_eq_false_2 _ Hd), (bool_decide_eq_true_2 _ Hd).
      by destruct (start_failure e1).
  - destruct (bots s !! bot_id) as [b|]; [|done].
    rewrite stop_spec. by destruct (stop_failure e2 b).
Qed.

(** Run alone, the two pieces of a start are [start_bot]. *)
Lemma start_task_alone env bot_id tok sp s :
  let first := start_task_step env (StartCalled bot_id tok sp) s in
  start_task_step env first.1 first.2
  = (match fst (start_bot env bot_id tok sp s) with
     | Ok b => StartReturned b
     | Raise _ => StartReturned false
     end, snd (start_bot env bot_id tok sp s)).
Proof.
  cbv zeta. rewrite start_bot_spec. unfold start_task_step at 2 3.
  case_bool_decide; [reflexivity|].
  cbv [fst snd]. unfold start_task_step. rewrite start_polling_spec.
  by destruct (start_failure env).
Qed.

(** C5, as the code has it. When the tenant is started twice, the second
    call beginning after the first has returned and no stop in between,
    the two calls do not both return true; one of them returns true
    exactly when the tenant was not registered before and at least one of
    the two worker starts returned. *)
Theorem of_two_successive_starts_at_most_one_succeeds
    (e1 e2 : start_env) (bot_id : Z) (tok1 sp1 tok2 sp2 : str) (s : BotManager) :
  let first := start_bot e1 bot_id tok1 sp1 s in
  let second := start_bot e2 bot_id tok2 sp2 (snd first) in
  ∃ b1 b2, fst first = Ok b1 ∧ fst second = Ok b2
    ∧ b1 && b2 = false
    ∧ b1 || b2
      = bool_decide (bot_id ∉ dom (bots s))
        && (is_Ok (fst (start_polling e1 (ManagedBot_init bot_id tok1 sp1)))
            || is_Ok (fst (start_polling e2 (ManagedBot_init bot_id tok2 sp2)))).
Proof.
  cbv zeta. rewrite !start_bot_spec, !start_polling_spec.
  destruct (decide (bot_id ∈ dom (bots s))) as [Hd|Hd].
  - rewrite (bool_decide_eq_true_2 _ Hd). cbv [snd].
    rewrite (bool_decide_eq_true_2 _ Hd).
    rewrite bool_decide_eq_false_2 by (by intros ?).
    by exists false, false.
  - rewrite (bool_decide_eq_false_2 _ Hd), (bool_decide_eq_true_2 _ Hd).
    destruct (start_failure e1) as [x1|].
    + cbv [snd]. rewrite (bool_decide_eq_false_2 _ Hd).
      destruct (start_failure e2); by eexists _, _.
    + cbv [snd bots]. rewrite bool_decide_eq_true_2
        by (apply elem_of_dom; rewrite lookup_insert_eq; by eexists).
      exists true, false. by destruct (start_failure e2).
Qed.

(** C5, as the spec has it, fails in two ways.  Interleaved (each call
    reaches its await before the other resumes), both calls pass the
    check and both return true; and when the transport rejects the token
    both times, neither returns true. *)
Lemma two_interleaved_starts_both_succeed :
  fst (run_two_starts accepting accepting [false; true; false; true]
         (StartCalled 1 sample_token (utf8 "friendly tutor"))
         (StartCalled 1 sample_token (utf8 "friendly tutor"))
         BotManager_init)
  = (StartReturned true, StartReturned true)
  ∧ fst (start_bot rejecting 1 sample_token (utf8 "friendly tutor") BotManager_init)
    = Ok false
  ∧ fst (start_bot rejecting 1 sample_token (utf8 "friendly tutor")
           (snd (start_bot rejecting 1 sample_token (utf8 "friendly tutor")
                   BotManager_init)))
    = Ok false.
Proof. repeat split; vm_compute; reflexivity. Qed.

(** ** The token validator *)

Lemma split_not_nil sep s : split sep s ≠ [].
Proof.
  destruct s as [|c rest]; simpl; [done|].
  destruct (c =? sep)%N; [done|]. by destruct (split sep rest).
Qed.

Lemma split_cons_eq sep rest : split sep (sep :: rest) = [] :: split sep rest.
Proof. simpl. by rewrite N.eqb_refl. Qed.

Lemma split_cons_ne sep c rest :
  c ≠ sep →
  ∃ part parts, split sep rest = part :: parts
                ∧ split sep (c :: rest) = (c :: part) :: parts.
Proof.
  intros Hne. simpl. rewrite (proj2 (N.eqb_neq c sep) Hne).
  destruct (split sep rest) as [|part parts] eqn:Hs.
  - by apply split_not_nil in Hs.
  - by exists part, parts.
Qed.

(** A string without the separator is one part. *)
Lemma split_one sep s p : split sep s = [p] ↔ s = p ∧ sep ∉ p.
Proof.
  revert p. induction s as [|c rest IH]; intros p.
  - simpl. split.
    + intros [= <-]. split; [done|]. apply not_elem_of_nil.
    + by intros [<- _].
  - destruct (decide (c = sep)) as [->|Hne].
    + rewrite split_cons_eq. split.
      * intros [= _ Hs]. by apply split_not_nil in Hs.
      * intros [<- Hn]. exfalso. apply Hn. apply list_elem_of_here.
    + destruct (split_cons_ne sep c rest Hne) as (part & parts & Hs & ->).
      split.
      * intros [= <- ->]. apply IH in Hs as [-> Hn]. split; [done|].
        rewrite elem_of_cons. intros [?|?]; [congruence | done].
      * intros [<- Hn]. rewrite not_elem_of_cons in Hn. destruct Hn as [_ Hn].
        assert (split sep rest = [rest]) as Hr by (by apply IH).
        rewrite Hs in Hr. by injection Hr as -> ->.
Qed.

(** Two parts: the separator occurs once, between them. *)
Lemma split_two sep s p0 p1 :
  split sep s = [p0; p1] ↔ s = p0 ++ (sep :: p1) ∧ (sep ∉ p0) ∧ (sep ∉ p1).
Proof.
  revert p0. induction s as [|c rest IH]; intros p0.
  - simpl. split; [done|]. intros [H _]. by destruct p0.
  - destruct (decide (c = sep)) as [->|Hne].
    + rewrite split_cons_eq. split.
      * intros [= <- Hs]. apply split_one in Hs as [-> Hn].
        split; [done|]. split; [apply not_elem_of_nil | done].
      * intros (Hs & Hn0 & Hn1). destruct p0 as [|c p0].
        -- simpl in Hs. injection Hs as ->. f_equal. by apply split_one.
        -- simpl in Hs. injection Hs as <- _. exfalso. apply Hn0, list_elem_of_here.
    + destruct (split_cons_ne sep c rest Hne) as (part & parts & Hs & ->).
      split.
      * intros [= <- ->]. apply IH in Hs as (-> & Hn0 & Hn1).
        split; [done|]. split; [|done]. rewrite not_elem_of_cons. by split.
      * intros (Heq & Hn0 & Hn1). destruct p0 as [|c' p0].
        -- simpl in Heq. congruence.
        -- simpl in Heq. injection Heq as <- ->.
           rewrite not_elem_of_cons in Hn0. destruct Hn0 as [_ Hn0].
           assert (split sep (p0 ++ (sep :: p1)) = [p0; p1]) as Hr by (by apply IH).
           rewrite Hs in Hr. by injection Hr as -> ->.
Qed.

Section TokenProofs.

Variable isdigit_char : char → bool.

Lemma forallb_Forall (s : str) :
  forallb isdigit_char s = true ↔ Forall (λ c, isdigit_char c = true) s.
Proof.
  induction s as [|c s IH]; simpl.
  - split; [constructor | done].
  - rewrite andb_true_iff, IH, Forall_cons. done.
Qed.

Lemma isdigit_spec (s : str) :
  isdigit isdigit_char s = true ↔ s ≠ [] ∧ Forall (λ c, isdigit_char c = true) s.
Proof.
  unfold isdigit. destruct s as [|c s].
  - split; [done | by intros [? _]].
  - rewrite forallb_Forall. split; [by intros ? | by intros [_ ?]].
Qed.

Lemma _validate_token_two_parts (token p0 p1 : str) :
  split colon token = [p0; p1] →
  _validate_token isdigit_char token
  = Ok (isdigit isdigit_char p0 && (20 <? length p1)%nat).
Proof.
  intros Hs. unfold _validate_token. rewrite Hs.
  change (seq_index [p0; p1] 0) with (Some p0).
  change (seq_index [p0; p1] 1) with (Some p1).
  change (negb (length [p0; p1] =? 2)%nat) with false. cbv iota.
  by destruct (isdigit isdigit_char p0).
Qed.

Lemma _validate_token_other (token : str) :
  length (split colon token) ≠ 2%nat →
  _validate_token isdigit_char token = Ok false.
Proof.
  intros Hs. unfold _validate_token.
  by rewrite (proj2 (Nat.eqb_neq _ _) Hs).
Qed.

(** C10, as the code has it. The validator returns a boolean for every
    token, and returns true if and only if the token splits on the colon
    into exactly two parts, the first part is not empty and holds only
    characters [str.isdigit] takes for digits, and the second part has
    more than 20 characters. *)
Theorem _validate_token_accepts (token : str) :
  (∃ b, _validate_token isdigit_char token = Ok b)
  ∧ (_validate_token isdigit_char token = Ok true
     ↔ ∃ p0 p1, split colon token = [p0; p1]
                ∧ p0 ≠ []
                ∧ Forall (λ c, isdigit_char c = true) p0
                ∧ (20 < length p1)%nat).
Proof.
  destruct (decide (length (split colon token) = 2%nat)) as [H2|H2].
  - destruct (split colon token) as [|p0 [|p1 [|p2 rest]]] eqn:Hs; try done.
    rewrite (_validate_token_two_parts token p0 p1 Hs). split; [by eexists|].
    split.
    + intros [= Hb]. apply andb_true_iff in Hb as [Hd Hl].
      apply isdigit_spec in Hd as [? ?]. apply Nat.ltb_lt in Hl.
      by exists p0, p1.
    + intros (q0 & q1 & [= <- <-] & Hne & Hall & Hl).
      f_equal. apply andb_true_iff. split.
      * by apply isdigit_spec.
      * by apply Nat.ltb_lt.
  - rewrite (_validate_token_other token H2). split; [by eexists|].
    split; [done|].
    intros (q0 & q1 & Hs & _). by rewrite Hs in H2.
Qed.

End TokenProofs.

(** C10, as the spec has it, fails on a token that begins with the colon:
    it splits into two parts, the first (empty) holds nothing but digits,
    the second has 21 characters, and the validator refuses it, whatever
    characters count as digits. *)
Lemma token_without_identifier_is_refused :
  split colon no_identifier_token = [[]; secret_21]
  ∧ (20 < length secret_21)%nat
  ∧ (∀ isdigit_char : char → bool,
       Forall (λ c, isdigit_char c = true) ([] : str)
       ∧ _validate_token isdigit_char no_identifier_token = Ok false).
Proof.
  split; [vm_compute; reflexivity|].
  split; [vm_compute; lia|].
  intros tbl. split; [constructor|].
  rewrite (_validate_token_two_parts tbl no_identifier_token [] secret_21)
    by (vm_compute; reflexivity).
  reflexivity.
Qed.

Example sample_token_is_accepted : _validate_token ascii_digit sample_token = Ok true.
Proof. vm_compute. reflexivity. Qed.

(** * Further properties of the code *)

(** ** The message handler *)

Lemma chat_value_ok post msgs sp m t text data v :
  post (chat_payload msgs sp m t) = Response 200 text (Ok data) →
  extract_content data = Ok v →
  chat_value post msgs sp m t = v.
Proof.
  intros Hpost Hdata.
  unfold chat_value, chat, try_except, mbind, M_bind, bind.
  rewrite _get_session_opens. unfold chat_request. rewrite Hpost.
  change (negb (200 =? 200)) with false. cbv iota.
  unfold mbind, M_bind, bind, lift. by rewrite Hdata.
Qed.


(** X1. When the endpoint answers 200 with a body whose
    choices[0].message.content is [v], the handler appends an assistant
    turn carrying [v] to the history the user turn left and sends [v] as
    the reply (its apology if that cannot be delivered). *)
Theorem completion_is_recorded_and_sent
    (env : handler_env) (update : Update) (w : runtime) (h : list message)
    (text : result str) (data v : value) :
  history (snd (record_user_turn update w)) (effective_user_id update) = Some h →
  post env (chat_payload h (system_prompt (self w)) default_model default_temperature)
  = Response 200 text (Ok data) →
  extract_content data = Ok v →
  history (snd (message_handler env update w)) (effective_user_id update)
  = Some (h ++ [assistant_turn v])
  ∧ outbox (snd (message_handler env update w))
    = outbox w ++
      match reply_result env with
      | None => [(effective_user_id update, v)]
      | Some _ =>
          match apology_result env with
          | None => [(effective_user_id update, VStr apology_text)]
          | Some _ => []
          end
      end.
Proof.
  rewrite record_user_turn_history. intros [= <-] Hpost Hdata.
  rewrite message_handler_history, message_handler_outbox.
  by rewrite (chat_value_ok _ _ _ _ _ _ _ _ Hpost Hdata).
Qed.

Lemma completion_is_recorded_and_sent_witness :
  history (snd (message_handler (mocked_reply (utf8 "Hi there!")) hello tutor)) 7
  = Some ([user_turn (utf8 "hello")] ++ [assistant_turn (VStr (utf8 "Hi there!"))])
  ∧ outbox (snd (message_handler (mocked_reply (utf8 "Hi there!")) hello tutor))
    = [] ++ [(7, VStr (utf8 "Hi there!"))].
Proof.
  apply (completion_is_recorded_and_sent (mocked_reply (utf8 "Hi there!")) hello tutor
           [user_turn (utf8 "hello")] (Ok [])
           (completion_body (utf8 "Hi there!")) (VStr (utf8 "Hi there!")));
    vm_compute; reflexivity.
Defined.

Lemma self_put_history u h w :
  bot_id (self (put_history u h w)) = bot_id (self w)
  ∧ bot_token (self (put_history u h w)) = bot_token (self w)
  ∧ system_prompt (self (put_history u h w)) = system_prompt (self w)
  ∧ application (self (put_history u h w)) = application (self w).
Proof. done. Qed.

(** X2. Handling a message of one user leaves the history of every
    other user, and the worker's identifier, token, prompt and
    application, as they were. *)
Theorem message_handler_touches_one_history
    (env : handler_env) (update : Update) (w : runtime) (v : Z) :
  effective_user_id update ≠ v →
  history (snd (message_handler env update w)) v = history w v
  ∧ bot_id (self (snd (message_handler env update w))) = bot_id (self w)
  ∧ bot_token (self (snd (message_handler env update w))) = bot_token (self w)
  ∧ system_prompt (self (snd (message_handler env update w))) = system_prompt (self w)
  ∧ application (self (snd (message_handler env update w))) = application (self w).
Proof.
  intros Hne. split; [by apply message_handler_history_ne|].
  rewrite message_handler_spec.
  destruct (reply_result env), (apology_result env); done.
Qed.

Lemma message_handler_touches_one_history_witness :
  history (snd (message_handler timed_out hello tutor)) 8 = history tutor 8
  ∧ bot_id (self (snd (message_handler timed_out hello tutor))) = bot_id (self tutor)
  ∧ bot_token (self (snd (message_handler timed_out hello tutor))) = bot_token (self tutor)
  ∧ system_prompt (self (snd (message_handler timed_out hello tutor)))
    = system_prompt (self tutor)
  ∧ application (self (snd (message_handler timed_out hello tutor)))
    = application (self tutor).
Proof.
  apply (message_handler_touches_one_history timed_out hello tutor 8).
  vm_compute. discriminate.
Defined.


Lemma cap20_suffix h : cap20 h `suffix_of` h.
Proof. unfold cap20, last_n. case_bool_decide; [apply suffix_drop | done]. Qed.

Lemma length_cap20_min h : length (cap20 h) = (length h `min` 20)%nat.
Proof.
  unfold cap20, last_n. case_bool_decide; [rewrite length_drop|]; lia.
Qed.

Lemma last_cap20_snoc h x : last (cap20 (h ++ [x])) = Some x.
Proof.
  unfold cap20, last_n. case_bool_decide; [|apply last_snoc].
  rewrite length_app in *. simpl in *.
  rewrite drop_app_le by lia. apply last_snoc.
Qed.

(** X4. Recording a user turn never fails, and leaves the most recent
    turns of the old history followed by the new turn: a suffix of the
    old history extended by the turn, 20 entries long or the whole of it
    when that is shorter, ending with the new turn. *)
Theorem record_user_turn_keeps_the_latest_20 (update : Update) (w : runtime) :
  let u := effective_user_id update in
  let new := turns (snd (record_user_turn update w)) u in
  fst (record_user_turn update w) = Ok ()
  ∧ new `suffix_of` (turns w u ++ [user_turn (message_text update)])
  ∧ length new = (S (length (turns w u)) `min` 20)%nat
  ∧ last new = Some (user_turn (message_text update)).
Proof.
  cbv zeta. unfold turns at 1 3 5. rewrite record_user_turn_history.
  rewrite record_user_turn_spec. unfold with_user_turn. fold (turns w (effective_user_id update)).
  simpl. split; [done|]. split; [apply cap20_suffix|]. split.
  - rewrite length_cap20_min, length_app. simpl. lia.
  - apply last_cap20_snoc.
Qed.



(** X6. The start command, like reset, leaves the invoking user with an
    empty history whether or not there was one, touches no other user's
    history, and returns whenever the transport delivers the greeting. *)
Theorem start_command_clears_only_the_invoking_user
    (env : handler_env) (update : Update) (w : runtime) (v : Z) :
  effective_user_id update ≠ v →
  history (snd (start_handler env update w)) (effective_user_id update) = Some []
  ∧ history (snd (start_handler env update w)) v = history w v
  ∧ fst (start_handler env update w)
    = match reply_result env with None => Ok () | Some e => Raise e end
  ∧ outbox (snd (start_handler env update w))
    = outbox w ++
      match reply_result env with
      | None => [(effective_user_id update, VStr greeting_text)]
      | Some _ => []
      end.
Proof.
  intros Hne. rewrite start_handler_spec.
  destruct (reply_result env); cbv zeta; cbv [fst snd];
    rewrite ?history_deliver, history_put_eq, history_put_ne by done;
    repeat split; unfold put_history; simpl; by rewrite ?app_nil_r.
Qed.

Lemma start_command_clears_only_the_invoking_user_witness :
  history (snd (message_handler timed_out hello tutor)) 7
  = Some [user_turn (utf8 "hello"); assistant_turn (VStr api_timeout_text)]
  ∧ history (snd (start_handler timed_out hello
                    (snd (message_handler timed_out hello tutor)))) 7 = Some []
  ∧ history (snd (start_handler timed_out hello
                    (snd (message_handler timed_out hello tutor)))) 8
    = history (snd (message_handler timed_out hello tutor)) 8
  ∧ fst (start_handler timed_out hello (snd (message_handler timed_out hello tutor)))
    = Ok ()
  ∧ outbox (snd (start_handler timed_out hello
                   (snd (message_handler timed_out hello tutor))))
    = outbox (snd (message_handler timed_out hello tutor)) ++ [(7, VStr greeting_text)].
Proof.
  split; [vm_compute; reflexivity|].
  apply (start_command_clears_only_the_invoking_user timed_out hello
           (snd (message_handler timed_out hello tutor)) 8).
  vm_compute. discriminate.
Defined.

(** ** The supervisor *)

(** X7. A start that returns false leaves the supervisor as it was; a
    start that returns true registers, under the tenant's identifier, a
    worker with that identifier, token and prompt, no history and a built
    application, and leaves every other entry as it was. *)
Theorem start_bot_registers_a_fresh_worker_or_nothing
    (env : start_env) (bot_id : Z) (bot_token prompt : str) (s s' : BotManager)
    (r : bool) :
  start_bot env bot_id bot_token prompt s = (Ok r, s') →
  if r
  then bots s !! bot_id = None
       ∧ bots s' !! bot_id
         = Some {| bot_id := bot_id; bot_token := bot_token; system_prompt := prompt;
                   application := Some (polling_application bot_token);
                   user_contexts := ∅ |}
       ∧ ∀ other, other ≠ bot_id → bots s' !! other = bots s !! other
  else s' = s.
Proof.
  rewrite start_bot_spec.
  destruct (decide (bot_id ∈ dom (bots s))) as [Hd|Hd].
  - rewrite (bool_decide_eq_true_2 _ Hd). by intros [= <- <-].
  - rewrite (bool_decide_eq_false_2 _ Hd). apply not_elem_of_dom in Hd.
    destruct (start_failure env); intros [= <- <-]; [done|].
    simpl. rewrite lookup_insert_eq. split; [done|]. split; [done|].
    intros other Hne. by rewrite lookup_insert_ne.
Qed.

Lemma start_bot_registers_a_fresh_worker_or_nothing_witness :
  (bots BotManager_init !! 1 = None
   ∧ bots one_running !! 1
     = Some {| bot_id := 1; bot_token := sample_token;
               system_prompt := utf8 "friendly tutor";
               application := Some (polling_application sample_token);
               user_contexts := ∅ |}
   ∧ ∀ other, other ≠ 1 → bots one_running !! other = bots BotManager_init !! other)
  ∧ snd (start_bot accepting 1 sample_token (utf8 "other prompt") one_running)
    = one_running.
Proof.
  split.
  - apply (start_bot_registers_a_fresh_worker_or_nothing accepting 1 sample_token
             (utf8 "friendly tutor") BotManager_init one_running true).
    vm_compute. reflexivity.
  - apply (start_bot_registers_a_fresh_worker_or_nothing accepting 1 sample_token
             (utf8 "other prompt") one_running
             (snd (start_bot accepting 1 sample_token (utf8 "other prompt") one_running))
             false).
    vm_compute. reflexivity.
Defined.

Lemma stop_bot_inv env bot_id s s' (r : bool) :
  stop_bot env bot_id s = (Ok r, s') →
  if r
  then is_Some (bots s !! bot_id) ∧ bots s' = delete bot_id (bots s)
  else s' = s.
Proof.
  rewrite stop_bot_spec. destruct (bots s !! bot_id) as [b|].
  - destruct (stop_failure env b); intros [= <- <-]; [done|]. split; [by eexists | done].
  - by intros [= <- <-].
Qed.

(** X8. A stop that returns false leaves the supervisor as it was: in
    particular a worker whose stop raises stays registered.  A stop that
    returns true removes the tenant's entry and no other. *)
Theorem stop_bot_removes_the_entry_or_nothing
    (env : stop_env) (bot_id : Z) (s s' : BotManager) (r : bool) :
  stop_bot env bot_id s = (Ok r, s') →
  if r
  then is_Some (bots s !! bot_id) ∧ bots s' = delete bot_id (bots s)
  else s' = s.
Proof. apply stop_bot_inv. Qed.

Lemma stop_bot_removes_the_entry_or_nothing_witness :
  (is_Some (bots one_running !! 1)
   ∧ bots (snd (stop_bot releasing 1 one_running)) = delete 1 (bots one_running))
  ∧ snd (stop_bot stuck 1 one_running) = one_running.
Proof.
  split.
  - apply (stop_bot_removes_the_entry_or_nothing releasing 1 one_running
             (snd (stop_bot releasing 1 one_running)) true).
    vm_compute. reflexivity.
  - apply (stop_bot_removes_the_entry_or_nothing stuck 1 one_running
             (snd (stop_bot stuck 1 one_running)) false).
    vm_compute. reflexivity.
Defined.

(** X9. Of two stops of a tenant with no start in between, the second
    returns false and changes nothing once the first has returned true. *)
Theorem second_stop_is_refused
    (e1 e2 : stop_env) (bot_id : Z) (s s1 : BotManager) :
  stop_bot e1 bot_id s = (Ok true, s1) →
  stop_bot e2 bot_id s1 = (Ok false, s1).
Proof.
  intros Hstop.
  apply (stop_bot_inv e1 bot_id s s1 true) in Hstop as [_ Hs1].
  rewrite stop_bot_spec, Hs1. by rewrite lookup_delete_eq.
Qed.

Lemma second_stop_is_refused_witness :
  stop_bot stuck 1 (snd (stop_bot releasing 1 one_running))
  = (Ok false, snd (stop_bot releasing 1 one_running)).
Proof.
  apply (second_stop_is_refused releasing stuck 1 one_running).
  vm_compute. reflexivity.
Defined.

(** X10. Once a stop has returned true the tenant can be started again:
    a start whose worker start returns then returns true, and the new
    worker has no history. *)
Theorem stopped_tenant_can_be_started_again
    (e1 : stop_env) (e2 : start_env) (bot_id : Z) (bot_token prompt : str)
    (s s1 : BotManager) :
  stop_bot e1 bot_id s = (Ok true, s1) →
  is_Ok (fst (start_polling e2 (ManagedBot_init bot_id bot_token prompt))) = true →
  fst (start_bot e2 bot_id bot_token prompt s1) = Ok true
  ∧ user_contexts <$> bots (snd (start_bot e2 bot_id bot_token prompt s1)) !! bot_id
    = Some ∅.
Proof.
  intros Hstop Hstart.
  apply (stop_bot_inv e1 bot_id s s1 true) in Hstop as [_ Hs1].
  apply is_Ok_start_polling in Hstart.
  rewrite start_bot_spec, Hstart.
  rewrite bool_decide_eq_false_2.
  - simpl. by rewrite lookup_insert_eq.
  - apply not_elem_of_dom. rewrite Hs1. apply lookup_delete_eq.
Qed.

Lemma stopped_tenant_can_be_started_again_witness :
  fst (start_bot accepting 1 sample_token (utf8 "stern tutor")
         (snd (stop_bot releasing 1 one_running))) = Ok true
  ∧ user_contexts
      <$> bots (snd (start_bot accepting 1 sample_token (utf8 "stern tutor")
                       (snd (stop_bot releasing 1 one_running)))) !! 1
    = Some ∅.
Proof.
  apply (stopped_tenant_can_be_started_again releasing accepting 1 sample_token
           (utf8 "stern tutor") one_running); vm_compute; reflexivity.
Defined.

Lemma stop_each_spec envs keys s :
  NoDup keys →
  fst (stop_each envs keys s) = Ok ()
  ∧ ∀ k, bots (snd (stop_each envs keys s)) !! k
         = if decide (k ∈ keys)
           then match bots s !! k with
                | Some b => if is_Ok (fst (stop (envs k) b)) then None else Some b
                | None => None
                end
           else bots s !! k.
Proof.
  revert s. induction keys as [|a keys IH]; intros s Hnd.
  - split; [done|]. intros k. rewrite decide_False; [done | apply not_elem_of_nil].
  - apply NoDup_cons in Hnd as [Ha Hnd].
    assert (∃ r s1, stop_bot (envs a) a s = (Ok r, s1)
                  ∧ bots s1 !! a
                    = match bots s !! a with
                      | Some b => if is_Ok (fst (stop (envs a) b)) then None else Some b
                      | None => None
                      end
                  ∧ ∀ k, k ≠ a → bots s1 !! k = bots s !! k)
      as (r & s1 & Hstop & Hsa & Hsk).
    { rewrite stop_bot_spec. destruct (bots s !! a) as [b|] eqn:Hb.
      - rewrite stop_spec. destruct (stop_failure (envs a) b).
        + exists false, s. by rewrite Hb.
        + exists true, {| bots := delete a (bots s) |}.
          split; [done|]. simpl. rewrite lookup_delete_eq. split; [done|].
          intros k Hk. by rewrite lookup_delete_ne.
      - exists false, s. by rewrite Hb. }
    simpl. erewrite bind_Ok by exact Hstop.
    destruct (IH s1 Hnd) as [Hok Hrest]. split; [done|].
    intros k. rewrite Hrest.
    destruct (decide (k = a)) as [->|Hne].
    + rewrite (decide_False (P := a ∈ keys)) by done.
      rewrite (decide_True (P := a ∈ a :: keys)) by apply list_elem_of_here.
      done.
    + rewrite (Hsk k Hne).
      destruct (decide (k ∈ keys)) as [Hin|Hin].
      * rewrite decide_True; [done | by apply list_elem_of_further].
      * rewrite decide_False; [done|]. rewrite elem_of_cons. by intros [?|?].
Qed.

Lemma stop_all_spec envs s k :
  fst (stop_all envs s) = Ok ()
  ∧ bots (snd (stop_all envs s)) !! k
    = match bots s !! k with
      | Some b => if is_Ok (fst (stop (envs k) b)) then None else Some b
      | None => None
      end.
Proof.
  unfold stop_all. erewrite bind_Ok by reflexivity.
  destruct (stop_each_spec envs (get_running_bots s) s) as [Hok Hk].
  { unfold get_running_bots. apply NoDup_elements. }
  split; [done|]. rewrite Hk.
  destruct (decide (k ∈ get_running_bots s)) as [Hin|Hin]; [done|].
  rewrite elem_of_get_running_bots in Hin.
  destruct (bots s !! k); [|done]. exfalso. apply Hin. by eexists.
Qed.

(** X11. [stop_all] lets no exception out and goes through every
    registered tenant whatever happens to the others: afterwards the
    registry holds exactly the workers whose stop raised. *)
Theorem stop_all_leaves_the_workers_that_fail_to_stop
    (envs : Z → stop_env) (s : BotManager) (k : Z) :
  fst (stop_all envs s) = Ok ()
  ∧ bots (snd (stop_all envs s)) !! k
    = match bots s !! k with
      | Some b => if is_Ok (fst (stop (envs k) b)) then None else Some b
      | None => None
      end.
Proof. apply stop_all_spec. Qed.

Lemma call_keeps_registry_well_keyed c s :
  (∀ k b, bots s !! k = Some b →
          bot_id b = k ∧ application b = Some (polling_application (bot_token b))) →
  ∀ k b, bots (call c s) !! k = Some b →
         bot_id b = k ∧ application b = Some (polling_application (bot_token b)).
Proof.
  intros Hs k b. destruct c as [env id tok sp|env id|envs]; simpl.
  - rewrite start_bot_spec. case_bool_decide; [apply Hs|].
    destruct (start_failure env); [apply Hs|]. simpl.
    destruct (decide (id = k)) as [->|Hne].
    + rewrite lookup_insert_eq. by intros [= <-].
    + rewrite lookup_insert_ne by done. apply Hs.
  - rewrite stop_bot_spec. destruct (bots s !! id) as [b'|]; [|apply Hs].
    destruct (stop_failure env b'); [apply Hs|]. simpl.
    destruct (decide (id = k)) as [->|Hne].
    + by rewrite lookup_delete_eq.
    + rewrite lookup_delete_ne by done. apply Hs.
  - rewrite (proj2 (stop_all_spec envs s k)).
    destruct (bots s !! k) as [b'|] eqn:Hb; [|done].
    destruct (is_Ok _); [done|]. intros [= <-]. by apply Hs.
Qed.

(** X12. Whatever calls have been made on a supervisor since it was
    built, every worker in its registry is registered under its own
    identifier and has the application [start_polling] built for its
    token, so that stopping it always goes through the transport. *)
Theorem registered_workers_are_keyed_by_their_identifier
    (calls : list supervisor_call) (k : Z) (b : ManagedBot) :
  bots (run_calls calls BotManager_init) !! k = Some b →
  bot_id b = k ∧ application b = Some (polling_application (bot_token b)).
Proof.
  assert (∀ s,
    (∀ k b, bots s !! k = Some b →
            bot_id b = k ∧ application b = Some (polling_application (bot_token b))) →
    ∀ k b, bots (run_calls calls s) !! k = Some b →
           bot_id b = k ∧ application b = Some (polling_application (bot_token b)))
    as Hrun.
  { induction calls as [|c calls IH]; intros s Hs; [done|].
    simpl. apply IH. by apply call_keeps_registry_well_keyed. }
  apply Hrun. intros k' b'. unfold BotManager_init. simpl. by rewrite lookup_empty.
Qed.

Lemma registered_workers_are_keyed_by_their_identifier_witness :
  bot_id (set_application (Some (polling_application sample_token))
            (ManagedBot_init 2 sample_token (utf8 "poet"))) = 2
  ∧ application (set_application (Some (polling_application sample_token))
                   (ManagedBot_init 2 sample_token (utf8 "poet")))
    = Some (polling_application
              (bot_token (set_application (Some (polling_application sample_token))
                            (ManagedBot_init 2 sample_token (utf8 "poet"))))).
Proof.
  apply (registered_workers_are_keyed_by_their_identifier
           [CallStart accepting 1 sample_token (utf8 "friendly tutor");
            CallStart accepting 2 sample_token (utf8 "poet");
            CallStop stuck 2;
            CallStop releasing 1;
            CallStart rejecting 3 sample_token (utf8 "critic")] 2).
  vm_compute. reflexivity.
Defined.

(** ** The gateway client *)

(** X13. Whatever the endpoint does, [chat] returns a value and raises
    nothing, and leaves the client with an open session; this holds just
    as well after [close], the next call opening a session again. *)
Theorem chat_always_returns
    (post : payload → http_outcome) (msgs : list message) (sp model : str)
    (temperature : Q) (api : OnlySqAPI) :
  ∃ v, chat post msgs sp model temperature api = (Ok v, open_api)
       ∧ chat post msgs sp model temperature (snd (close api)) = (Ok v, open_api).
Proof. eexists. split; apply chat_returns. Qed.

Lemma chat_value_chat post msgs sp m t api v :
  chat_value post msgs sp m t = v →
  chat post msgs sp m t api = (Ok v, open_api).
Proof. intros <-. apply chat_returns. Qed.

(** X14. On a 200 whose decoded body has a choices[0].message.content,
    [chat] returns that content, whatever it is. *)
Theorem chat_returns_the_content
    (post : payload → http_outcome) (msgs : list message) (sp model : str)
    (temperature : Q) (api : OnlySqAPI) (text : result str) (data v : value) :
  post (chat_payload msgs sp model temperature) = Response 200 text (Ok data) →
  extract_content data = Ok v →
  chat post msgs sp model temperature api = (Ok v, open_api).
Proof.
  intros Hpost Hdata. apply chat_value_chat. by eapply chat_value_ok.
Qed.

Lemma chat_returns_the_content_witness :
  chat (post (mocked_reply (utf8 "Hi there!"))) [user_turn (utf8 "hello")]
    (utf8 "friendly tutor") default_model default_temperature OnlySqAPI_init
  = (Ok (VStr (utf8 "Hi there!")), open_api).
Proof.
  apply (chat_returns_the_content (post (mocked_reply (utf8 "Hi there!")))
           [user_turn (utf8 "hello")] (utf8 "friendly tutor") default_model
           default_temperature OnlySqAPI_init (Ok [])
           (completion_body (utf8 "Hi there!")) (VStr (utf8 "Hi there!")));
    vm_compute; reflexivity.
Defined.

(** X15. On any status other than 200 whose body can be read, 201
    included, [chat] returns its API-error text and does not look at the
    decoded body. *)
Theorem chat_takes_any_other_status_for_an_error
    (post : payload → http_outcome) (msgs : list message) (sp model : str)
    (temperature : Q) (api : OnlySqAPI) (status : Z) (body : str)
    (json : result value) :
  post (chat_payload msgs sp model temperature) = Response status (Ok body) json →
  status ≠ 200 →
  chat post msgs sp model temperature api = (Ok (VStr api_error_text), open_api).
Proof.
  intros Hpost Hstatus. apply chat_value_chat.
  unfold chat_value, chat, try_except, mbind, M_bind, bind.
  rewrite _get_session_opens. unfold chat_request. rewrite Hpost.
  by rewrite (proj2 (Z.eqb_neq status 200) Hstatus).
Qed.

Lemma chat_takes_any_other_status_for_an_error_witness :
  chat created [user_turn (utf8 "hello")] (utf8 "friendly tutor")
    default_model default_temperature OnlySqAPI_init
  = (Ok (VStr api_error_text), open_api).
Proof.
  apply (chat_takes_any_other_status_for_an_error created
           [user_turn (utf8 "hello")] (utf8 "friendly tutor") default_model
           default_temperature OnlySqAPI_init 201 (utf8 "{}")
           (Ok (completion_body (utf8 "Hi there!"))));
    [vm_compute; reflexivity | lia].
Defined.

(** X16. When the request times out, on sending or while the body is
    read, [chat] returns its timeout text. *)
Theorem chat_answers_a_timeout_with_the_timeout_text
    (post : payload → http_outcome) (msgs : list message) (sp model : str)
    (temperature : Q) (api : OnlySqAPI) :
  timed_out_outcome (post (chat_payload msgs sp model temperature)) = true →
  chat post msgs sp model temperature api = (Ok (VStr api_timeout_text), open_api).
Proof.
  intros Hto. apply chat_value_chat.
  unfold chat_value, chat, try_except, mbind, M_bind, bind.
  rewrite _get_session_opens. unfold chat_request.
  unfold timed_out_outcome in Hto.
  destruct (post _) as [e|status text json].
  - destruct e; try discriminate Hto; reflexivity.
  - destruct (negb _).
    + destruct text as [x|[]]; try discriminate Hto; reflexivity.
    + destruct json as [x|[]]; try discriminate Hto; reflexivity.
Qed.

Lemma chat_answers_a_timeout_with_the_timeout_text_witness :
  chat (post timed_out) [user_turn (utf8 "hello")] (utf8 "friendly tutor")
    default_model default_temperature OnlySqAPI_init
  = (Ok (VStr api_timeout_text), open_api).
Proof.
  apply (chat_answers_a_timeout_with_the_timeout_text (post timed_out)
           [user_turn (utf8 "hello")] (utf8 "friendly tutor") default_model
           default_temperature OnlySqAPI_init).
  vm_compute. reflexivity.
Defined.

Lemma subscript_raises v k e :
  subscript v k = Raise e → e = KeyError ∨ e = IndexError ∨ e = TypeError.
Proof.
  destruct v, k; simpl; try (intros [= <-]; tauto).
  - destruct (seq_index s i); [done | intros [= <-]; tauto].
  - destruct (seq_index items i); [done | intros [= <-]; tauto].
  - destruct (dict_get items k); [done | intros [= <-]; tauto].
Qed.

Lemma extract_content_raises data e :
  extract_content data = Raise e → e = KeyError ∨ e = IndexError ∨ e = TypeError.
Proof.
  unfold extract_content.
  destruct (subscript data _) as [choices|e1] eqn:H1;
    [|intros [= <-]; by eapply subscript_raises].
  destruct (subscript choices _) as [first|e2] eqn:H2;
    [|intros [= <-]; by eapply subscript_raises].
  destruct (subscript first _) as [msg|e3] eqn:H3;
    [|intros [= <-]; by eapply subscript_raises].
  apply subscript_raises.
Qed.

(** X17. On a 200 whose decoded body has no choices[0].message.content
    (a key is missing, the list of choices is empty, a value has the wrong
    type), [chat] returns its failure text. *)
Theorem chat_answers_a_malformed_body_with_the_failure_text
    (post : payload → http_outcome) (msgs : list message) (sp model : str)
    (temperature : Q) (api : OnlySqAPI) (text : result str) (data : value) :
  post (chat_payload msgs sp model temperature) = Response 200 text (Ok data) →
  is_Ok (extract_content data) = false →
  chat post msgs sp model temperature api = (Ok (VStr api_failure_text), open_api).
Proof.
  intros Hpost Hdata. apply chat_value_chat.
  unfold chat_value, chat, try_except, mbind, M_bind, bind.
  rewrite _get_session_opens. unfold chat_request. rewrite Hpost.
  change (negb (200 =? 200)) with false. cbv iota.
  unfold mbind, M_bind, bind, lift.
  destruct (extract_content data) as [v|e] eqn:He; [done|].
  apply extract_content_raises in He as [->|[->| ->]]; reflexivity.
Qed.

Lemma chat_answers_a_malformed_body_with_the_failure_text_witness :
  chat (λ _, Response 200 (Ok []) (Ok no_choices)) [user_turn (utf8 "hello")]
    (utf8 "friendly tutor") default_model default_temperature OnlySqAPI_init
  = (Ok (VStr api_failure_text), open_api).
Proof.
  apply (chat_answers_a_malformed_body_with_the_failure_text
           (λ _, Response 200 (Ok []) (Ok no_choices))
           [user_turn (utf8 "hello")] (utf8 "friendly tutor") default_model
           default_temperature OnlySqAPI_init (Ok []) no_choices);
    vm_compute; reflexivity.
Defined.

Lemma chat_echo msgs sp m t api :
  chat echo msgs sp m t api
  = (Ok (VList (map message_json (outbound_messages msgs sp))), open_api).
Proof.
  apply chat_value_chat.
  unfold chat_value, chat, try_except, mbind, M_bind, bind.
  rewrite _get_session_opens.
  unfold chat_request, echo, chat_payload, messages.
  rewrite full_messages_outbound. reflexivity.
Qed.

(** X18. [generate_bot_prompt] sends one request: no system message, one
    user message whose content is the template with the description put
    in as it is; and whatever the endpoint does it returns a value and
    raises nothing. *)
Theorem generate_bot_prompt_asks_with_the_description
    (post : payload → http_outcome) (description : str) (api : OnlySqAPI) :
  generate_bot_prompt echo description api
  = (Ok (VList [message_json
                  (Message (utf8 "user")
                     (VStr (meta_prompt_head ++ description ++ meta_prompt_tail)))]),
     open_api)
  ∧ ∃ v, generate_bot_prompt post description api = (Ok v, open_api).
Proof.
  unfold generate_bot_prompt, meta_prompt_format. split.
  - erewrite bind_Ok by apply chat_echo. reflexivity.
  - erewrite bind_Ok by apply chat_returns. by eexists.
Qed.

(** X19. When its gateway call fails, [generate_bot_prompt] does not
    fail: it returns one of the three fixed texts of [chat] as the
    generated prompt. *)
Theorem generate_bot_prompt_returns_the_degraded_text
    (post : payload → http_outcome) (description : str) (api : OnlySqAPI) :
  gateway_failed
    (post (Payload (utf8 "gpt-4o-mini")
             [Message (utf8 "user") (VStr (meta_prompt_format description))]
             (8 # 10))) = true →
  ∃ text, text ∈ degraded_texts
          ∧ generate_bot_prompt post description api = (Ok (VStr text), open_api).
Proof.
  intros Hfail. unfold generate_bot_prompt.
  apply (chat_value_failed post _ [] (utf8 "gpt-4o-mini") (8 # 10)) in Hfail
    as (text & Hin & Hval).
  exists text. split; [done|].
  erewrite bind_Ok by apply chat_returns. by rewrite Hval.
Qed.

Lemma generate_bot_prompt_returns_the_degraded_text_witness :
  ∃ text, text ∈ degraded_texts
          ∧ generate_bot_prompt (post timed_out) (utf8 "a patient tutor")
              OnlySqAPI_init
            = (Ok (VStr text), open_api).
Proof.
  apply (generate_bot_prompt_returns_the_degraded_text (post timed_out)
           (utf8 "a patient tutor") OnlySqAPI_init).
  vm_compute. reflexivity.
Defined.

(** ** The database *)

Lemma largest_id_ge table k :
  is_Some (table !! k) → k ≤ largest_id table.
Proof.
  unfold largest_id. revert k.
  apply (map_fold_weak_ind (λ acc m, ∀ k, is_Some (m !! k) → k ≤ acc)).
  - intros k [x Hx]. by rewrite lookup_empty in Hx.
  - intros i x m r Hi IH k Hk. destruct (decide (i = k)) as [->|Hne]; [lia|].
    rewrite lookup_insert_ne in Hk by done. specialize (IH k Hk). lia.
Qed.

Lemma create_bot_spec user_id name tok sp descr d :
  create_bot user_id name tok sp descr d
  = (Ok (1 + Z.max (sequence d) (largest_id (rows d))),
     {| rows := <[1 + Z.max (sequence d) (largest_id (rows d))
                  := {| row_user_id := user_id; row_bot_name := name;
                        row_bot_token := tok; row_system_prompt := sp;
                        row_description := descr; row_is_active := true |}]> (rows d);
        sequence := 1 + Z.max (sequence d) (largest_id (rows d)) |}).
Proof. reflexivity. Qed.

(** X20. [create_bot] gives the new row an identifier that no row has
    and that is above every identifier ever given out; the row can be read
    back by [get_bot] with the values passed and active; no other row
    changes. *)
Theorem create_bot_adds_an_active_row_under_a_new_identifier
    (user_id : Z) (name tok sp descr : str) (d : Database) (k : Z) :
  ∃ new_id,
    fst (create_bot user_id name tok sp descr d) = Ok new_id
    ∧ rows d !! new_id = None
    ∧ sequence d < new_id
    ∧ (is_Some (rows d !! k) → k < new_id)
    ∧ fst (get_bot new_id (snd (create_bot user_id name tok sp descr d)))
      = Ok (Some {| row_user_id := user_id; row_bot_name := name;
                    row_bot_token := tok; row_system_prompt := sp;
                    row_description := descr; row_is_active := true |})
    ∧ (k ≠ new_id →
       fst (get_bot k (snd (create_bot user_id name tok sp descr d)))
       = fst (get_bot k d)).
Proof.
  rewrite create_bot_spec. eexists. split; [reflexivity|].
  assert (∀ j, is_Some (rows d !! j) → j < 1 + Z.max (sequence d) (largest_id (rows d)))
    as Hlt.
  { intros j Hj. apply largest_id_ge in Hj. lia. }
  split; [|split; [lia|split; [apply Hlt|split]]].
  - destruct (rows d !! _) eqn:Hr; [|done].
    assert (is_Some (rows d !! (1 + Z.max (sequence d) (largest_id (rows d)))))
      as Hs by (by eexists).
    apply Hlt in Hs. lia.
  - unfold get_bot, gets. simpl. by rewrite lookup_insert_eq.
  - intros Hne. unfold get_bot, gets. simpl. by rewrite lookup_insert_ne.
Qed.

(** X21. An identifier is not given out twice, even when its row has
    been deleted in between. *)
Theorem create_bot_does_not_reuse_a_deleted_identifier
    (u1 u2 : Z) (n1 t1 p1 d1 n2 t2 p2 d2 : str) (d : Database) :
  let first := create_bot u1 n1 t1 p1 d1 d in
  ∃ id1 id2,
    fst first = Ok id1
    ∧ fst (create_bot u2 n2 t2 p2 d2 (snd (delete_bot id1 (snd first)))) = Ok id2
    ∧ id1 < id2.
Proof.
  cbv zeta. rewrite create_bot_spec. eexists _, _. split; [reflexivity|].
  rewrite create_bot_spec. split; [reflexivity|]. simpl. lia.
Qed.

(** ** The callbacks that stop, start and delete a bot *)

Section CallbackProofs.

Variable int : str → result Z.

Lemma query_reply_spec r update text f :
  query_reply r update text f
  = match r with
    | None => (Ok (), Factory (bot_manager f) (db f)
                        (replies f ++ [(query_user_id update, text)]))
    | Some e => (Raise e, f)
    end.
Proof. by destruct r. Qed.

Lemma query_bot_id_spec update f :
  query_bot_id int update f
  = (match seq_index (split underscore (query_data update)) 1 with
     | None => Raise IndexError
     | Some part => int part
     end, f).
Proof. unfold query_bot_id. by destruct (seq_index _ 1). Qed.

Lemma on_db_get_bot bot_id f : on_db (get_bot bot_id) f = (Ok (rows (db f) !! bot_id), f).
Proof. by destruct f. Qed.

(** What the three callbacks do before they act: [None] when the run ends
    there with nothing changed but, possibly, a reply that the bot was not
    found. *)
Lemma callback_refused (act : Z → bot_row → M BotFactory unit) env update f :
  (∀ part bot_id, seq_index (split underscore (query_data update)) 1 = Some part →
                  int part = Ok bot_id → ¬ owns f (query_user_id update) bot_id) →
  let run :=
    (external (answer_result env);;
     bot_id ← query_bot_id int update;
     bot ← on_db (get_bot bot_id);
     match bot with
     | None => query_reply (message_result env) update not_found_text
     | Some row =>
         if bool_decide (row_user_id row ≠ query_user_id update)
         then query_reply (message_result env) update not_found_text
         else act bot_id row
     end) f in
  bot_manager (snd run) = bot_manager f
  ∧ db (snd run) = db f
  ∧ (replies (snd run) = replies f
     ∨ replies (snd run) = replies f ++ [(query_user_id update, not_found_text)]).
Proof.
  intros Hno. cbv zeta.
  destruct (answer_result env) as [e|];
    [erewrite bind_Raise by reflexivity; split; [done|split; [done|by left]]|].
  erewrite bind_Ok by reflexivity.
  pose proof (query_bot_id_spec update f) as Hid.
  destruct (seq_index (split underscore (query_data update)) 1) as [part|] eqn:Hpart.
  - destruct (int part) as [bot_id|e] eqn:Hint.
    + erewrite bind_Ok by exact Hid.
      erewrite bind_Ok by apply on_db_get_bot.
      specialize (Hno part bot_id eq_refl Hint).
      assert (query_reply (message_result env) update not_found_text f
              = (match message_result env with None => Ok () | Some e => Raise e end,
                 Factory (bot_manager f) (db f)
                   (replies f ++ match message_result env with
                                 | None => [(query_user_id update, not_found_text)]
                                 | Some _ => []
                                 end))) as Hreply.
      { rewrite query_reply_spec. destruct (message_result env); [|done].
        destruct f. simpl. by rewrite app_nil_r. }
      destruct (rows (db f) !! bot_id) as [row|] eqn:Hrow.
      * case_bool_decide as Howner.
        -- rewrite Hreply. simpl. repeat split.
           destruct (message_result env); [left; apply app_nil_r | right; reflexivity].
        -- exfalso. apply Hno. exists row. split; [done|].
           destruct (decide (row_user_id row = query_user_id update)); [done|].
           by destruct Howner.
      * rewrite Hreply. simpl. repeat split.
        destruct (message_result env); [left; apply app_nil_r | right; reflexivity].
    + erewrite bind_Raise by exact Hid. split; [done|split; [done|by left]].
  - erewrite bind_Raise by exact Hid. split; [done|split; [done|by left]].
Qed.

(** X22. Unless the callback data names a bot that has a row owned by
    the requester, the callbacks that stop, start and delete a bot change
    neither the supervisor nor the database; all they may do is reply
    that the bot was not found. *)
Theorem callbacks_act_for_the_owner_only
    (env : callback_env) (update : CallbackUpdate) (f : BotFactory) :
  (∀ part bot_id, seq_index (split underscore (query_data update)) 1 = Some part →
                  int part = Ok bot_id → ¬ owns f (query_user_id update) bot_id) →
  (bot_manager (snd (stop_bot_callback int env update f)) = bot_manager f
   ∧ db (snd (stop_bot_callback int env update f)) = db f
   ∧ (replies (snd (stop_bot_callback int env update f)) = replies f
      ∨ replies (snd (stop_bot_callback int env update f))
        = replies f ++ [(query_user_id update, not_found_text)]))
  ∧ (bot_manager (snd (start_bot_callback int env update f)) = bot_manager f
     ∧ db (snd (start_bot_callback int env update f)) = db f
     ∧ (replies (snd (start_bot_callback int env update f)) = replies f
        ∨ replies (snd (start_bot_callback int env update f))
          = replies f ++ [(query_user_id update, not_found_text)]))
  ∧ (bot_manager (snd (delete_bot_callback int env update f)) = bot_manager f
     ∧ db (snd (delete_bot_callback int env update f)) = db f
     ∧ (replies (snd (delete_bot_callback int env update f)) = replies f
        ∨ replies (snd (delete_bot_callback int env update f))
          = replies f ++ [(query_user_id update, not_found_text)])).
Proof.
  intros Hno. split; [|split]; by apply (callback_refused _ env update f).
Qed.

Lemma callback_granted (act : Z → bot_row → M BotFactory unit) env update f
    part bot_id row :
  answer_result env = None →
  seq_index (split underscore (query_data update)) 1 = Some part →
  int part = Ok bot_id →
  rows (db f) !! bot_id = Some row →
  row_user_id row = query_user_id update →
  (external (answer_result env);;
   bot_id ← query_bot_id int update;
   bot ← on_db (get_bot bot_id);
   match bot with
   | None => query_reply (message_result env) update not_found_text
   | Some row =>
       if bool_decide (row_user_id row ≠ query_user_id update)
       then query_reply (message_result env) update not_found_text
       else act bot_id row
   end) f
  = act bot_id row f.
Proof.
  intros Hanswer Hpart Hint Hrow Howner. rewrite Hanswer.
  erewrite bind_Ok by reflexivity.
  erewrite bind_Ok by (rewrite query_bot_id_spec, Hpart, Hint; reflexivity).
  erewrite bind_Ok by apply on_db_get_bot.
  rewrite Hrow. by rewrite bool_decide_eq_false_2 by (by intros ?).
Qed.

Lemma on_manager_stop_bot env bot_id f :
  ∃ r, on_manager (stop_bot env bot_id) f
       = (Ok r, Factory (snd (stop_bot env bot_id (bot_manager f))) (db f) (replies f)).
Proof.
  unfold on_manager. rewrite stop_bot_spec.
  destruct (bots (bot_manager f) !! bot_id) as [b|]; [|by eexists].
  destruct (stop_failure env b); by eexists.
Qed.

Lemma bots_after_stop_bot env bot_id s :
  bots (snd (stop_bot env bot_id s)) !! bot_id
  = match bots s !! bot_id with
    | Some b => if is_Ok (fst (stop env b)) then None else Some b
    | None => None
    end.
Proof.
  rewrite stop_bot_spec. destruct (bots s !! bot_id) as [b|] eqn:Hb; [|done].
  rewrite stop_spec. destruct (stop_failure env b); simpl; [done|].
  apply lookup_delete_eq.
Qed.

Lemma stop_bot_callback_granted env update f part bot_id row :
  answer_result env = None →
  seq_index (split underscore (query_data update)) 1 = Some part →
  int part = Ok bot_id →
  rows (db f) !! bot_id = Some row →
  row_user_id row = query_user_id update →
  stop_bot_callback int env update f
  = let f' := Factory (snd (stop_bot (worker_stop env) bot_id (bot_manager f)))
                {| rows := alter (set_is_active false) bot_id (rows (db f));
                   sequence := sequence (db f) |}
                (replies f) in
    query_reply (message_result env) update (stopped_text (row_bot_name row)) f'.
Proof.
  intros Hanswer Hpart Hint Hrow Howner. unfold stop_bot_callback.
  rewrite (callback_granted _ env update f part bot_id row) by done.
  destruct (on_manager_stop_bot (worker_stop env) bot_id f) as [r Hstop].
  erewrite bind_Ok by exact Hstop.
  erewrite bind_Ok by reflexivity. reflexivity.
Qed.

(** X23. For its owner, the callback that stops a bot marks the row
    inactive whatever the supervisor's stop did: when the worker cannot be
    stopped it stays registered, and running, under a row that says
    inactive. *)
Theorem stop_bot_callback_marks_the_row_inactive_in_any_case
    (env : callback_env) (update : CallbackUpdate) (f : BotFactory)
    (part : str) (bot_id : Z) (row : bot_row) (k : Z) :
  answer_result env = None →
  seq_index (split underscore (query_data update)) 1 = Some part →
  int part = Ok bot_id →
  rows (db f) !! bot_id = Some row →
  row_user_id row = query_user_id update →
  rows (db (snd (stop_bot_callback int env update f))) !! k
  = (if decide (k = bot_id) then Some (set_is_active false row) else rows (db f) !! k)
  ∧ bots (bot_manager (snd (stop_bot_callback int env update f))) !! bot_id
    = match bots (bot_manager f) !! bot_id with
      | Some b => if is_Ok (fst (stop (worker_stop env) b)) then None else Some b
      | None => None
      end
  ∧ replies (snd (stop_bot_callback int env update f))
    = replies f ++
      match message_result env with
      | None => [(query_user_id update, stopped_text (row_bot_name row))]
      | Some _ => []
      end.
Proof.
  intros Hanswer Hpart Hint Hrow Howner.
  rewrite (stop_bot_callback_granted env update f part bot_id row) by done.
  cbv zeta. rewrite query_reply_spec.
  destruct (message_result env); simpl; rewrite ?app_nil_r;
    (split; [|split; [apply bots_after_stop_bot | done]]);
    (case_decide as Hk;
     [subst k; by rewrite lookup_alter_eq, Hrow | by rewrite lookup_alter_ne]).
Qed.

Lemma on_manager_start_bot env bot_id tok sp f :
  on_manager (start_bot env bot_id tok sp) f
  = (Ok (bool_decide (bot_id ∉ dom (bots (bot_manager f)))
         && is_Ok (fst (start_polling env (ManagedBot_init bot_id tok sp)))),
     Factory (snd (start_bot env bot_id tok sp (bot_manager f))) (db f) (replies f)).
Proof.
  unfold on_manager. rewrite start_bot_spec, start_polling_spec.
  destruct (decide (bot_id ∈ dom (bots (bot_manager f)))) as [Hd|Hd].
  - rewrite (bool_decide_eq_true_2 _ Hd).
    by rewrite bool_decide_eq_false_2 by (by intros ?).
  - rewrite (bool_decide_eq_false_2 _ Hd), (bool_decide_eq_true_2 _ Hd).
    by destruct (start_failure env).
Qed.

(** X24. For its owner, the callback that starts a bot starts it with the
    token and the prompt of its row, and marks the row active only when
    the supervisor's start returned true; when it returned false, as it
    does for a bot that is already running, the row is left as it is and
    the reply is the start error. *)
Theorem start_bot_callback_marks_the_row_active_on_success_only
    (env : callback_env) (update : CallbackUpdate) (f : BotFactory)
    (part : str) (bot_id : Z) (row : bot_row) (k : Z) :
  answer_result env = None →
  seq_index (split underscore (query_data update)) 1 = Some part →
  int part = Ok bot_id →
  rows (db f) !! bot_id = Some row →
  row_user_id row = query_user_id update →
  let started :=
    bool_decide (bot_id ∉ dom (bots (bot_manager f)))
    && is_Ok (fst (start_polling (worker_start env)
                     (ManagedBot_init bot_id (row_bot_token row)
                        (row_system_prompt row)))) in
  rows (db (snd (start_bot_callback int env update f))) !! k
  = (if decide (k = bot_id)
     then Some (if started then set_is_active true row else row)
     else rows (db f) !! k)
  ∧ bot_manager (snd (start_bot_callback int env update f))
    = snd (start_bot (worker_start env) bot_id (row_bot_token row)
             (row_system_prompt row) (bot_manager f))
  ∧ replies (snd (start_bot_callback int env update f))
    = replies f ++
      match message_result env with
      | None => [(query_user_id update,
                  if started then started_text (row_bot_name row)
                  else start_error_text (row_bot_name row))]
      | Some _ => []
      end.
Proof.
  intros Hanswer Hpart Hint Hrow Howner started. unfold start_bot_callback.
  rewrite (callback_granted _ env update f part bot_id row) by done.
  erewrite bind_Ok by apply on_manager_start_bot. fold started.
  destruct started.
  - erewrite bind_Ok by reflexivity. rewrite query_reply_spec.
    destruct (message_result env); simpl; rewrite ?app_nil_r;
      (split; [|done]);
      (case_decide as Hk;
       [subst k; by rewrite lookup_alter_eq, Hrow | by rewrite lookup_alter_ne]).
  - rewrite query_reply_spec.
    destruct (message_result env); simpl; rewrite ?app_nil_r;
      (split; [|done]); (case_decide as Hk; [by subst k | done]).
Qed.

(** X25. For its owner, the callback that deletes a bot deletes the row
    whatever the supervisor's stop did: when the worker cannot be stopped
    it stays registered, and running, with no row left for it. *)
Theorem delete_bot_callback_deletes_the_row_in_any_case
    (env : callback_env) (update : CallbackUpdate) (f : BotFactory)
    (part : str) (bot_id : Z) (row : bot_row) (k : Z) :
  answer_result env = None →
  seq_index (split underscore (query_data update)) 1 = Some part →
  int part = Ok bot_id →
  rows (db f) !! bot_id = Some row →
  row_user_id row = query_user_id update →
  rows (db (snd (delete_bot_callback int env update f))) !! k
  = (if decide (k = bot_id) then None else rows (db f) !! k)
  ∧ bots (bot_manager (snd (delete_bot_callback int env update f))) !! bot_id
    = match bots (bot_manager f) !! bot_id with
      | Some b => if is_Ok (fst (stop (worker_stop env) b)) then None else Some b
      | None => None
      end
  ∧ replies (snd (delete_bot_callback int env update f))
    = replies f ++
      match message_result env with
      | None => [(query_user_id update, deleted_text (row_bot_name row))]
      | Some _ => []
      end.
Proof.
  intros Hanswer Hpart Hint Hrow Howner. unfold delete_bot_callback.
  rewrite (callback_granted _ env update f part bot_id row) by done.
  destruct (on_manager_stop_bot (worker_stop env) bot_id f) as [r Hstop].
  erewrite bind_Ok by exact Hstop.
  erewrite bind_Ok by reflexivity. rewrite query_reply_spec.
  destruct (message_result env); simpl; rewrite ?app_nil_r;
    (split; [|split; [apply bots_after_stop_bot | done]]);
    (case_decide as Hk;
     [subst k; by rewrite lookup_delete_eq | by rewrite lookup_delete_ne]).
Qed.

End CallbackProofs.

Lemma stranger_owns_nothing part bot_id :
  seq_index (split underscore (query_data stranger_stops)) 1 = Some part →
  decimal part = Ok bot_id →
  ¬ owns small_factory (query_user_id stranger_stops) bot_id.
Proof.
  intros Hpart Hid [row [Hrow Howner]].
  vm_compute in Hpart. injection Hpart as <-.
  vm_compute in Hid. injection Hid as <-.
  vm_compute in Hrow. injection Hrow as <-.
  vm_compute in Howner. discriminate.
Qed.

Lemma callbacks_act_for_the_owner_only_witness :
  (bot_manager (snd (stop_bot_callback decimal smooth stranger_stops small_factory))
   = bot_manager small_factory
   ∧ db (snd (stop_bot_callback decimal smooth stranger_stops small_factory))
     = db small_factory
   ∧ (replies (snd (stop_bot_callback decimal smooth stranger_stops small_factory))
      = replies small_factory
      ∨ replies (snd (stop_bot_callback decimal smooth stranger_stops small_factory))
        = replies small_factory ++ [(query_user_id stranger_stops, not_found_text)]))
  ∧ (bot_manager (snd (start_bot_callback decimal smooth stranger_stops small_factory))
     = bot_manager small_factory
     ∧ db (snd (start_bot_callback decimal smooth stranger_stops small_factory))
       = db small_factory
     ∧ (replies (snd (start_bot_callback decimal smooth stranger_stops small_factory))
        = replies small_factory
        ∨ replies (snd (start_bot_callback decimal smooth stranger_stops small_factory))
          = replies small_factory ++ [(query_user_id stranger_stops, not_found_text)]))
  ∧ (bot_manager (snd (delete_bot_callback decimal smooth stranger_stops small_factory))
     = bot_manager small_factory
     ∧ db (snd (delete_bot_callback decimal smooth stranger_stops small_factory))
       = db small_factory
     ∧ (replies (snd (delete_bot_callback decimal smooth stranger_stops small_factory))
        = replies small_factory
        ∨ replies (snd (delete_bot_callback decimal smooth stranger_stops small_factory))
          = replies small_factory
            ++ [(query_user_id stranger_stops, not_found_text)])).
Proof.
  apply (callbacks_act_for_the_owner_only decimal smooth stranger_stops small_factory).
  exact stranger_owns_nothing.
Defined.

Lemma stop_bot_callback_marks_the_row_inactive_in_any_case_witness :
  rows (db (snd (stop_bot_callback decimal wedged owner_stops small_factory))) !! 1
  = (if decide (1 = 1) then Some (set_is_active false tutor_row)
     else rows (db small_factory) !! 1)
  ∧ bots (bot_manager (snd (stop_bot_callback decimal wedged owner_stops small_factory)))
      !! 1
    = match bots (bot_manager small_factory) !! 1 with
      | Some b => if is_Ok (fst (stop (worker_stop wedged) b)) then None else Some b
      | None => None
      end
  ∧ replies (snd (stop_bot_callback decimal wedged owner_stops small_factory))
    = replies small_factory ++
      match message_result wedged with
      | None => [(query_user_id owner_stops, stopped_text (row_bot_name tutor_row))]
      | Some _ => []
      end.
Proof.
  apply (stop_bot_callback_marks_the_row_inactive_in_any_case decimal wedged
           owner_stops small_factory (utf8 "1") 1 tutor_row 1);
    vm_compute; reflexivity.
Defined.

Lemma start_bot_callback_marks_the_row_active_on_success_only_witness :
  rows (db (snd (start_bot_callback decimal smooth owner_starts
                   (snd (stop_bot_callback decimal smooth owner_stops small_factory)))))
    !! 1
  = (if decide (1 = 1)
     then Some (if bool_decide
                     (1 ∉ dom (bots (bot_manager
                         (snd (stop_bot_callback decimal smooth owner_stops
                                 small_factory)))))
                   && is_Ok (fst (start_polling (worker_start smooth)
                                    (ManagedBot_init 1
                                       (row_bot_token (set_is_active false tutor_row))
                                       (row_system_prompt
                                          (set_is_active false tutor_row)))))
                then set_is_active true (set_is_active false tutor_row)
                else set_is_active false tutor_row)
     else rows (db (snd (stop_bot_callback decimal smooth owner_stops small_factory)))
            !! 1)
  ∧ bot_manager
      (snd (start_bot_callback decimal smooth owner_starts
              (snd (stop_bot_callback decimal smooth owner_stops small_factory))))
    = snd (start_bot (worker_start smooth) 1
             (row_bot_token (set_is_active false tutor_row))
             (row_system_prompt (set_is_active false tutor_row))
             (bot_manager
                (snd (stop_bot_callback decimal smooth owner_stops small_factory))))
  ∧ replies
      (snd (start_bot_callback decimal smooth owner_starts
              (snd (stop_bot_callback decimal smooth owner_stops small_factory))))
    = replies (snd (stop_bot_callback decimal smooth owner_stops small_factory)) ++
      match message_result smooth with
      | None =>
          [(query_user_id owner_starts,
            if bool_decide
                 (1 ∉ dom (bots (bot_manager
                     (snd (stop_bot_callback decimal smooth owner_stops
                             small_factory)))))
               && is_Ok (fst (start_polling (worker_start smooth)
                                (ManagedBot_init 1
                                   (row_bot_token (set_is_active false tutor_row))
                                   (row_system_prompt
                                      (set_is_active false tutor_row)))))
            then started_text (row_bot_name (set_is_active false tutor_row))
            else start_error_text (row_bot_name (set_is_active false tutor_row)))]
      | Some _ => []
      end.
Proof.
  apply (start_bot_callback_marks_the_row_active_on_success_only decimal smooth
           owner_starts
           (snd (stop_bot_callback decimal smooth owner_stops small_factory))
           (utf8 "1") 1 (set_is_active false tutor_row) 1);
    vm_compute; reflexivity.
Defined.

Lemma delete_bot_callback_deletes_the_row_in_any_case_witness :
  rows (db (snd (delete_bot_callback decimal wedged owner_deletes small_factory))) !! 1
  = (if decide (1 = 1) then None else rows (db small_factory) !! 1)
  ∧ bots (bot_manager
            (snd (delete_bot_callback decimal wedged owner_deletes small_factory))) !! 1
    = match bots (bot_manager small_factory) !! 1 with
      | Some b => if is_Ok (fst (stop (worker_stop wedged) b)) then None else Some b
      | None => None
      end
  ∧ replies (snd (delete_bot_callback decimal wedged owner_deletes small_factory))
    = replies small_factory ++
      match message_result wedged with
      | None => [(query_user_id owner_deletes, deleted_text (row_bot_name tutor_row))]
      | Some _ => []
      end.
Proof.
  apply (delete_bot_callback_deletes_the_row_in_any_case decimal wedged
           owner_deletes small_factory (utf8 "1") 1 tutor_row 1);
    vm_compute; reflexivity.
Defined.

(** ** The token validator, without [split] *)

(** X26. The validator accepts exactly the tokens with one colon, at
    least one character before it, all of them digits for [str.isdigit],
    and more than 20 characters after it: a token with no colon or with
    two is refused, and an accepted token has at least 23 characters. *)
Theorem accepted_tokens_have_exactly_one_colon
    (isdigit_char : char → bool) (token : str) :
  (_validate_token isdigit_char token = Ok true
   ↔ ∃ p0 p1, token = p0 ++ (colon :: p1)
              ∧ (colon ∉ p0) ∧ (colon ∉ p1)
              ∧ p0 ≠ []
              ∧ Forall (λ c, isdigit_char c = true) p0
              ∧ (20 < length p1)%nat)
  ∧ (_validate_token isdigit_char token = Ok true → (23 ≤ length token)%nat).
Proof.
  assert (_validate_token isdigit_char token = Ok true
          ↔ ∃ p0 p1, token = p0 ++ (colon :: p1)
                     ∧ (colon ∉ p0) ∧ (colon ∉ p1)
                     ∧ p0 ≠ []
                     ∧ Forall (λ c, isdigit_char c = true) p0
                     ∧ (20 < length p1)%nat) as Hiff.
  { split.
    - intros Hv.
      destruct (decide (length (split colon token) = 2%nat)) as [H2|H2].
      + destruct (split colon token) as [|p0 [|p1 [|p2 rest]]] eqn:Hs; try done.
        rewrite (_validate_token_two_parts isdigit_char token p0 p1 Hs) in Hv.
        injection Hv as Hb. apply andb_true_iff in Hb as [Hd Hl].
        apply isdigit_spec in Hd as [Hne Hall]. apply Nat.ltb_lt in Hl.
        apply split_two in Hs as (-> & Hn0 & Hn1).
        by exists p0, p1.
      + by rewrite (_validate_token_other isdigit_char token H2) in Hv.
    - intros (p0 & p1 & -> & Hn0 & Hn1 & Hne & Hall & Hl).
      rewrite (_validate_token_two_parts isdigit_char _ p0 p1)
        by (by apply split_two).
      f_equal. apply andb_true_iff. split.
      + by apply isdigit_spec.
      + by apply Nat.ltb_lt. }
  split; [exact Hiff|].
  intros Hv. apply Hiff in Hv as (p0 & p1 & -> & _ & _ & Hne & _ & Hl).
  rewrite length_app. simpl. destruct p0; [done|]. simpl. lia.
Qed.

(** ** Users do not see each other *)

Lemma dispatch_prompt env i w :
  system_prompt (self (snd (dispatch env i w))) = system_prompt (self w).
Proof.
  destruct i as [name update|update]; unfold dispatch.
  - repeat case_bool_decide; [| |done].
    + rewrite start_handler_spec. by destruct (reply_result env).
    + rewrite reset_handler_spec. by destruct (reply_result env).
  - rewrite message_handler_spec.
    by destruct (reply_result env), (apology_result env).
Qed.

Lemma dispatch_other_user env i w u :
  inbound_user i ≠ u →
  history (snd (dispatch env i w)) u = history w u.
Proof.
  intros Hne. destruct i as [name update|update]; unfold dispatch; simpl in Hne.
  - repeat case_bool_decide; [| |done].
    + rewrite start_handler_spec.
      destruct (reply_result env); cbv zeta; cbv [snd];
        rewrite ?history_deliver; by apply history_put_ne.
    + rewrite reset_handler_spec.
      destruct (reply_result env); cbv zeta; cbv [snd];
        rewrite ?history_deliver; by apply history_put_ne.
  - by apply message_handler_history_ne.
Qed.

Lemma dispatch_same_user env i w1 w2 :
  history w1 (inbound_user i) = history w2 (inbound_user i) →
  system_prompt (self w1) = system_prompt (self w2) →
  history (snd (dispatch env i w1)) (inbound_user i)
  = history (snd (dispatch env i w2)) (inbound_user i).
Proof.
  intros Hh Hp. destruct i as [name update|update]; unfold dispatch; simpl in *.
  - repeat case_bool_decide; [| |done].
    + rewrite !start_handler_spec.
      destruct (reply_result env); cbv zeta; cbv [snd];
        by rewrite ?history_deliver, !history_put_eq.
    + rewrite !reset_handler_spec.
      destruct (reply_result env); cbv zeta; cbv [snd];
        by rewrite ?history_deliver, !history_put_eq.
  - rewrite !message_handler_history. by rewrite Hh, Hp.
Qed.

Lemma handle_all_from_user u events w1 w2 :
  history w1 u = history w2 u →
  system_prompt (self w1) = system_prompt (self w2) →
  history (handle_all events w1) u = history (handle_all (from_user u events) w2) u.
Proof.
  revert w1 w2. induction events as [|[env i] events IH]; intros w1 w2 Hh Hp; [done|].
  unfold from_user. rewrite filter_cons. fold (from_user u events).
  simpl. case_decide as Hu.
  - simpl in Hu. subst u. simpl. apply IH.
    + by apply dispatch_same_user.
    + by rewrite !dispatch_prompt.
  - simpl in Hu. apply IH.
    + by rewrite dispatch_other_user.
    + by rewrite dispatch_prompt.
Qed.

(** X27. Whatever a worker handles, the history it holds for a user is
    the one it would hold had it received that user's updates only: the
    commands and messages of the others, and what the gateway and the
    transport did with them, leave no trace in it. *)
Theorem a_history_depends_on_its_own_user_only
    (events : list (handler_env * inbound)) (w : runtime) (u : Z) :
  history (handle_all events w) u = history (handle_all (from_user u events) w) u.
Proof. by apply handle_all_from_user. Qed.
